(** * dp-api-clients-go: the Cantabular query pipeline and its neighbours

    A shallow embedding of the parts of the repository that the
    specification talks about:

    - [cantabular] : [QueryData.Encode], [postQuery], [queryUnmarshal],
      [GetCodebook] and the [gql] response shapes;
    - [zebedee]    : [get], [GetPageTitle] and [GetDatasetLandingPage] with
      its bounded fan-out;
    - [identity]   : [CheckRequest];
    - [stream]     : [Stream].

    Go values are modelled as the code has them: strings are byte strings,
    a slice is either nil or a list, an [error] is either nil or an error
    value, a function with several results returns a tuple.  The standard
    library's [encoding/json] is modelled by a JSON tree, a parser that
    accepts exactly the JSON grammar and per-type decoders that follow
    the rules of [json.Unmarshal] for struct, slice, string and int
    targets.  What the network, [net/http] and [net/url] do is given to
    each client as a function.

    The file has four parts: the model of the code, sample inputs, the
    vocabulary of the properties, and the properties with their proofs. *)

From stdpp Require Import base strings list gmap.
From Stdlib Require Import ZArith Ascii String Lia DecimalString.

#[local] Open Scope string_scope.
#[local] Set Warnings "-register-all".

(* ===================================================================== *)
(** * Go values *)
(* ===================================================================== *)

Module Go.

(** A Go slice: [None] is the nil slice, [Some l] a non-nil slice. *)
Definition slice (A : Type) : Type := option (list A).

Definition elems {A} (s : slice A) : list A :=
  match s with None => [] | Some l => l end.

Definition len {A} (s : slice A) : nat := List.length (elems s).

End Go.

(* ===================================================================== *)
(** * encoding/json *)
(* ===================================================================== *)

Module JSON.

(** A JSON text as a tree.  A number keeps its literal: the decoder
    converts it only when it knows the target type.  An object keeps its
    members in the order of the text, duplicates included.  The bytes of
    a string are kept as they come: the scanner of Go also replaces
    bytes that are not UTF-8 by U+FFFD, which is left out here. *)
#[local] Unset Elimination Schemes.
Inductive json : Type :=
| JNull
| JBool (b : bool)
| JNum (lit : string)
| JStr (s : string)
| JArr (items : list json)
| JObj (members : list (string * json)).
#[local] Set Elimination Schemes.

(** ** Scanner *)

Inductive parsed (A : Type) : Type :=
| Parsed (a : A) (rest : string)
| SyntaxError
| OutOfFuel.
Arguments Parsed {A} a rest.
Arguments SyntaxError {A}.
Arguments OutOfFuel {A}.

Definition code (c : ascii) : N := N_of_ascii c.

Definition is_space (c : ascii) : bool :=
  (code c =? 32)%N || (code c =? 9)%N || (code c =? 10)%N || (code c =? 13)%N.

Definition is_digit (c : ascii) : bool :=
  (48 <=? code c)%N && (code c <=? 57)%N.

Fixpoint skip_space (s : string) : string :=
  match s with
  | String c r => if is_space c then skip_space r else s
  | EmptyString => s
  end.

(** Longest prefix of decimal digits, and what follows it. *)
Fixpoint span_digits (s : string) : string * string :=
  match s with
  | String c r =>
      if is_digit c
      then let '(ds, r') := span_digits r in (String c ds, r')
      else (EmptyString, s)
  | EmptyString => (EmptyString, s)
  end.

Definition nonempty (s : string) : bool :=
  match s with EmptyString => false | _ => true end.

(** An optional minus, an integer part without a leading zero, an
    optional fraction and an optional exponent. *)
Definition scan_int (s : string) : option (string * string) :=
  match s with
  | String c r =>
      if (code c =? 48)%N then Some (String c EmptyString, r)
      else if is_digit c
           then let '(ds, r') := span_digits r in Some (String c ds, r')
           else None
  | EmptyString => None
  end.

Definition scan_frac (s : string) : option (string * string) :=
  match s with
  | String c r =>
      if (code c =? 46)%N
      then let '(ds, r') := span_digits r in
           if nonempty ds then Some (String c ds, r') else None
      else Some (EmptyString, s)
  | EmptyString => Some (EmptyString, s)
  end.

Definition scan_sign (s : string) : string * string :=
  match s with
  | String c r =>
      if (code c =? 43)%N || (code c =? 45)%N
      then (String c EmptyString, r) else (EmptyString, s)
  | EmptyString => (EmptyString, s)
  end.

Definition scan_exp (s : string) : option (string * string) :=
  match s with
  | String c r =>
      if (code c =? 101)%N || (code c =? 69)%N
      then let '(sg, r1) := scan_sign r in
           let '(ds, r2) := span_digits r1 in
           if nonempty ds then Some (String c (sg ++ ds), r2) else None
      else Some (EmptyString, s)
  | EmptyString => Some (EmptyString, s)
  end.

Definition scan_number (s : string) : option (string * string) :=
  let '(sg, s1) :=
    match s with
    | String c r => if (code c =? 45)%N then (String c EmptyString, r)
                    else (EmptyString, s)
    | EmptyString => (EmptyString, s)
    end in
  match scan_int s1 with
  | None => None
  | Some (i, s2) =>
      match scan_frac s2 with
      | None => None
      | Some (f, s3) =>
          match scan_exp s3 with
          | None => None
          | Some (e, s4) => Some (sg ++ i ++ f ++ e, s4)
          end
      end
  end.

(** *** Strings *)

Definition hex_val (c : ascii) : option N :=
  let n := code c in
  if (48 <=? n)%N && (n <=? 57)%N then Some (n - 48)%N
  else if (97 <=? n)%N && (n <=? 102)%N then Some (n - 87)%N
  else if (65 <=? n)%N && (n <=? 70)%N then Some (n - 55)%N
  else None.

Definition hex4 (a b c d : ascii) : option N :=
  match hex_val a, hex_val b, hex_val c, hex_val d with
  | Some x, Some y, Some z, Some w => Some (((x * 16 + y) * 16 + z) * 16 + w)%N
  | _, _, _, _ => None
  end.

(** What the scanner sees inside the quotes. *)
Inductive token : Type :=
| TByte (c : ascii)        (* a byte copied as it is *)
| TUnit (u : N).           (* \uXXXX, a UTF-16 code unit *)

Definition simple_escape (c : ascii) : option ascii :=
  let n := code c in
  if (n =? 34)%N then Some c                       (* quote *)
  else if (n =? 92)%N then Some c                  (* backslash *)
  else if (n =? 47)%N then Some c                  (* slash *)
  else if (n =? 98)%N then Some (ascii_of_N 8)     (* \b *)
  else if (n =? 102)%N then Some (ascii_of_N 12)   (* \f *)
  else if (n =? 110)%N then Some (ascii_of_N 10)   (* \n *)
  else if (n =? 114)%N then Some (ascii_of_N 13)   (* \r *)
  else if (n =? 116)%N then Some (ascii_of_N 9)    (* \t *)
  else None.

(** After the opening quote: the tokens up to the closing quote and the
    text after it.  A control character or a bad escape is an error. *)
Fixpoint scan_string (s : string) : option (list token * string) :=
  match s with
  | EmptyString => None
  | String c r =>
      if (code c =? 34)%N then Some ([], r)
      else if (code c =? 92)%N then
        match r with
        | String e r1 =>
            if (code e =? 117)%N then
              match r1 with
              | String h1 (String h2 (String h3 (String h4 r2))) =>
                  match hex4 h1 h2 h3 h4 with
                  | Some u =>
                      match scan_string r2 with
                      | Some (ts, r3) => Some (TUnit u :: ts, r3)
                      | None => None
                      end
                  | None => None
                  end
              | _ => None
              end
            else
              match simple_escape e with
              | Some b =>
                  match scan_string r1 with
                  | Some (ts, r3) => Some (TByte b :: ts, r3)
                  | None => None
                  end
              | None => None
              end
        | EmptyString => None
        end
      else if (code c <? 32)%N then None
      else
        match scan_string r with
        | Some (ts, r3) => Some (TByte c :: ts, r3)
        | None => None
        end
  end.

Definition byte (n : N) : ascii := ascii_of_N n.

(** [utf8.EncodeRune]: surrogates and values past U+10FFFF become
    U+FFFD. *)
Definition utf8 (r : N) : list ascii :=
  if (r <? 128)%N then [byte r]
  else if (r <? 2048)%N then [byte (192 + r / 64); byte (128 + r mod 64)]
  else if ((55296 <=? r)%N && (r <=? 57343)%N) || (1114111 <? r)%N
       then [byte 239; byte 191; byte 189]
  else if (r <? 65536)%N
       then [byte (224 + r / 4096); byte (128 + (r / 64) mod 64);
             byte (128 + r mod 64)]
  else [byte (240 + r / 262144); byte (128 + (r / 4096) mod 64);
        byte (128 + (r / 64) mod 64); byte (128 + r mod 64)].

Definition is_high (u : N) : bool := (55296 <=? u)%N && (u <? 56320)%N.
Definition is_low (u : N) : bool := (56320 <=? u)%N && (u <? 57344)%N.

(** [unquote]: a high surrogate followed by a low one is one rune, a
    lone surrogate is U+FFFD. *)
Fixpoint unquote (ts : list token) : list ascii :=
  match ts with
  | [] => []
  | TByte c :: r => c :: unquote r
  | TUnit u :: r =>
      if is_high u then
        match r with
        | TUnit v :: r' =>
            if is_low v
            then utf8 (65536 + (u - 55296) * 1024 + (v - 56320)) ++ unquote r'
            else utf8 u ++ unquote r
        | _ => utf8 u ++ unquote r
        end
      else utf8 u ++ unquote r
  end.

Definition string_of (l : list ascii) : string :=
  fold_right String EmptyString l.

Definition scan_quoted (s : string) : option (string * string) :=
  match scan_string s with
  | Some (ts, r) => Some (string_of (unquote ts), r)
  | None => None
  end.

(** *** Literals *)

Fixpoint strip_prefix (p s : string) : option string :=
  match p with
  | EmptyString => Some s
  | String a p' =>
      match s with
      | String b s' => if Ascii.eqb a b then strip_prefix p' s' else None
      | EmptyString => None
      end
  end.

(** *** Values *)

(** One unit of fuel per call.  Between two calls at least one byte is
    consumed, and between two calls for items of one array or members of
    one object at least two, so [S (2 * length s)] is enough for the text
    [s].  [d] counts the arrays and objects that are open: the scanner
    refuses to open more than [maxNestingDepth] of them. *)
Definition maxNestingDepth : N := 10000.

Fixpoint scan_value (n : nat) (d : N) (s : string) : parsed json :=
  match n with
  | O => OutOfFuel
  | S n =>
      match s with
      | EmptyString => SyntaxError
      | String c r =>
          if (code c =? 123)%N then                     (* { *)
            if (maxNestingDepth <? d + 1)%N then SyntaxError
            else
              match skip_space r with
              | String e r1 =>
                  if (code e =? 125)%N then Parsed (JObj []) r1
                  else scan_members n (d + 1) (skip_space r) []
              | EmptyString => SyntaxError
              end
          else if (code c =? 91)%N then                 (* [ *)
            if (maxNestingDepth <? d + 1)%N then SyntaxError
            else
              match skip_space r with
              | String e r1 =>
                  if (code e =? 93)%N then Parsed (JArr []) r1
                  else scan_items n (d + 1) (skip_space r) []
              | EmptyString => SyntaxError
              end
          else if (code c =? 34)%N then                 (* quote *)
            match scan_quoted r with
            | Some (v, r1) => Parsed (JStr v) r1
            | None => SyntaxError
            end
          else if (code c =? 45)%N || is_digit c then
            match scan_number s with
            | Some (lit, r1) => Parsed (JNum lit) r1
            | None => SyntaxError
            end
          else
            match strip_prefix "true" s, strip_prefix "false" s,
                  strip_prefix "null" s with
            | Some r1, _, _ => Parsed (JBool true) r1
            | _, Some r1, _ => Parsed (JBool false) r1
            | _, _, Some r1 => Parsed JNull r1
            | _, _, _ => SyntaxError
            end
      end
  end

(** [s] starts at a value of the array; [acc] holds the items read so
    far, last first. *)
with scan_items (n : nat) (d : N) (s : string) (acc : list json)
  : parsed json :=
  match n with
  | O => OutOfFuel
  | S n =>
      match scan_value n d s with
      | Parsed v r =>
          match skip_space r with
          | String e r1 =>
              if (code e =? 44)%N
              then scan_items n d (skip_space r1) (v :: acc)
              else if (code e =? 93)%N then Parsed (JArr (rev (v :: acc))) r1
              else SyntaxError
          | EmptyString => SyntaxError
          end
      | SyntaxError => SyntaxError
      | OutOfFuel => OutOfFuel
      end
  end

(** [s] starts at a key of the object. *)
with scan_members (n : nat) (d : N) (s : string) (acc : list (string * json))
  : parsed json :=
  match n with
  | O => OutOfFuel
  | S n =>
      match s with
      | String q r =>
          if (code q =? 34)%N then
            match scan_quoted r with
            | Some (k, r1) =>
                match skip_space r1 with
                | String e r2 =>
                    if (code e =? 58)%N then
                      match scan_value n d (skip_space r2) with
                      | Parsed v r3 =>
                          match skip_space r3 with
                          | String e r4 =>
                              if (code e =? 44)%N
                              then scan_members n d (skip_space r4)
                                     ((k, v) :: acc)
                              else if (code e =? 125)%N
                              then Parsed (JObj (rev ((k, v) :: acc))) r4
                              else SyntaxError
                          | EmptyString => SyntaxError
                          end
                      | SyntaxError => SyntaxError
                      | OutOfFuel => OutOfFuel
                      end
                    else SyntaxError
                | EmptyString => SyntaxError
                end
            | None => SyntaxError
            end
          else SyntaxError
      | EmptyString => SyntaxError
      end
  end.

(** [checkValid] and the scan of [json.Unmarshal]: one value, with
    white space around it, and nothing else. *)
Definition parse (b : string) : parsed json :=
  match scan_value (S (2 * String.length b)) 0 (skip_space b) with
  | Parsed v r =>
      match skip_space r with
      | EmptyString => Parsed v EmptyString
      | String _ _ => SyntaxError
      end
  | SyntaxError => SyntaxError
  | OutOfFuel => OutOfFuel
  end.

End JSON.

Import Go JSON.

(* ===================================================================== *)
(** * Errors *)
(* ===================================================================== *)

Module Errors.

(** [log.Data] is a [map[string]interface{}] that ends up as JSON in the
    log: a value is kept as the JSON it marshals to. *)
Abbreviation logData := (gmap string json).

(** An [error] value by the call that built it.  The text of
    [fmt.Errorf] is its format with the texts of its arguments filled
    in; only the verb [%w] keeps the argument for [errors.Unwrap]. *)
#[local] Unset Elimination Schemes.
Inductive error : Type :=
| ErrNew (msg : string)                          (* errors.New(msg) *)
| ErrFmt (format : string) (args : list error)   (* fmt.Errorf, %s or %v *)
| ErrWrap (format : string) (arg : error)        (* fmt.Errorf, %w *)
| ErrSyntax                                      (* *json.SyntaxError *)
| ErrUnmarshalType (value : string) (target : string)
                                                 (* *json.UnmarshalTypeError *)
| ErrInvalidZebedeeResponse (actualCode : Z) (uri : string)
| ErrCoded (err : error) (statusCode : Z) (data : logData).
                                                 (* dperrors.New *)
#[local] Set Elimination Schemes.

(** [errors.Unwrap]. *)
Definition Unwrap (e : error) : option error :=
  match e with
  | ErrWrap _ inner => Some inner
  | ErrCoded inner _ _ => Some inner
  | _ => None
  end.

(** The status code an error built by [dperrors.New] carries. *)
Definition Code (e : error) : option Z :=
  match e with
  | ErrCoded _ c _ => Some c
  | _ => None
  end.

Definition StatusOK : Z := 200.
Definition StatusInternalServerError : Z := 500.

End Errors.

Import Errors.

(* ===================================================================== *)
(** * json.Unmarshal into Go values *)
(* ===================================================================== *)

Module Decode.

(** The decoder keeps the first type error it meets and goes on
    ([decodeState.saveError]). *)
Definition first (e1 e2 : option error) : option error :=
  match e1 with Some _ => e1 | None => e2 end.

(** The [Value] of an [UnmarshalTypeError]. *)
Definition kind (j : json) : string :=
  match j with
  | JNull => "null"
  | JBool _ => "bool"
  | JNum _ => "number"
  | JStr _ => "string"
  | JArr _ => "array"
  | JObj _ => "object"
  end.

Definition mismatch (j : json) (target : string) : option error :=
  Some (ErrUnmarshalType (kind j) target).

(** A decoder stores into a value that exists already. *)
Definition decoder (T : Type) : Type := json → T → T * option error.

Definition decode_string : decoder string := fun j cur =>
  match j with
  | JStr s => (s, None)
  | JNull => (cur, None)
  | _ => (cur, mismatch j "string")
  end.

(** [strconv.ParseInt(lit, 10, 64)] on a JSON number literal. *)
Fixpoint digits_value (s : string) (acc : Z) : option Z :=
  match s with
  | EmptyString => Some acc
  | String c r =>
      if is_digit c
      then digits_value r (10 * acc + Z.of_N (code c - 48))
      else None
  end.

Definition parse_int64 (lit : string) : option Z :=
  let '(neg, ds) :=
    match lit with
    | String c r => if (code c =? 45)%N then (true, r) else (false, lit)
    | EmptyString => (false, lit)
    end in
  if nonempty ds then
    match digits_value ds 0 with
    | Some v =>
        let z := if neg then (- v)%Z else v in
        if ((- 2 ^ 63 <=? z) && (z <? 2 ^ 63))%Z then Some z else None
    | None => None
    end
  else None.

Definition decode_int : decoder Z := fun j cur =>
  match j with
  | JNum lit =>
      match parse_int64 lit with
      | Some z => (z, None)
      | None => (cur, Some (ErrUnmarshalType ("number " ++ lit) "int"))
      end
  | JNull => (cur, None)
  | _ => (cur, mismatch j "int")
  end.

(** Field names match exactly or, failing that, under Unicode simple
    case folding.  The names of the shapes below are ASCII letters, and
    the runes that fold to an ASCII letter are the letter in its other
    case, U+017F (the long s, bytes C5 BF) for s and U+212A (the Kelvin
    sign, bytes E2 84 AA) for k; so a key matches a name when, with
    those two runes read as S and K and the ASCII letters in upper case,
    it is the name in upper case.  Any other byte past 127 stays as it
    is and matches no name. *)
Definition upper (c : ascii) : ascii :=
  if (97 <=? code c)%N && (code c <=? 122)%N
  then ascii_of_N (code c - 32) else c.

Fixpoint fold_name (s : string) : string :=
  match s with
  | EmptyString => EmptyString
  | String c r =>
      if (code c =? 197)%N then
        match r with
        | String c1 r1 =>
            if (code c1 =? 191)%N then String (ascii_of_N 83) (fold_name r1)
            else String c (fold_name r)
        | EmptyString => String c EmptyString
        end
      else if (code c =? 226)%N then
        match r with
        | String c1 (String c2 r2) =>
            if (code c1 =? 132)%N && (code c2 =? 170)%N
            then String (ascii_of_N 75) (fold_name r2)
            else String c (fold_name r)
        | _ => String c (fold_name r)
        end
      else String (upper c) (fold_name r)
  end.

Definition is_field (name key : string) : bool :=
  String.eqb (fold_name name) (fold_name key).

Section Combinators.
Context {T : Type}.

(** An object into a struct: the members in the order of the text,
    each stored into the field its key names. *)
Variable step : string → json → T → T * option error.

Fixpoint decode_members (ms : list (string * json)) (cur : T)
  : T * option error :=
  match ms with
  | [] => (cur, None)
  | (k, v) :: r =>
      let '(c1, e1) := step k v cur in
      let '(c2, e2) := decode_members r c1 in
      (c2, first e1 e2)
  end.

(** An array into a slice: item [i] is stored into element [i] of the
    slice when it has one, into a zero value otherwise; the slice
    ends up as long as the array. *)
Variable zero : T.
Variable elem : json → T → T * option error.

Fixpoint decode_items (items : list json) (cur : list T)
  : list T * option error :=
  match items with
  | [] => ([], None)
  | j :: r =>
      let '(x, e1) := elem j (hd zero cur) in
      let '(xs, e2) := decode_items r (tl cur) in
      (x :: xs, first e1 e2)
  end.
End Combinators.

(** A slice target: an array replaces its contents, [null] makes it
    nil, anything else is a type error and leaves it alone. *)
Definition decode_slice {T : Type} (target : string) (zero : T)
    (elem : json → T → T * option error) : decoder (slice T) :=
  fun j cur =>
    match j with
    | JArr items =>
        let '(xs, e) := decode_items zero elem items (elems cur) in
        (Some xs, e)
    | JNull => (None, None)
    | _ => (cur, mismatch j target)
    end.

(** ** Values of the kind a target accepts

    [null] is accepted everywhere: it leaves a string, an int or a struct
    as it is and makes a slice nil. *)
Definition fits_string (j : json) : bool :=
  match j with
  | JStr _ | JNull => true
  | _ => false
  end.

Definition fits_int (j : json) : bool :=
  match j with
  | JNum lit => match parse_int64 lit with Some _ => true | None => false end
  | JNull => true
  | _ => false
  end.

Definition fits_struct (member : string → json → bool) (j : json) : bool :=
  match j with
  | JObj ms => forallb (λ kv, let '(k, v) := kv in member k v) ms
  | JNull => true
  | _ => false
  end.

End Decode.

Import Decode.

(* ===================================================================== *)
(** * cantabular/gql: the response shapes *)
(* ===================================================================== *)

Module gql.

(** [Node] holds [Categories] and [[]Variables], which hold [[]Edge],
    which hold [Node]. *)
#[local] Unset Elimination Schemes.
Inductive Node : Type := mkNode {
  Node_Name : string;
  Node_Code : string;
  Node_Label : string;
  Node_Categories : Categories;
  Node_MapFrom : slice Variables;
  Node_FilterOnly : string;
  Node_Variable : Variable' }
with Categories : Type := mkCategories {
  Categories_TotalCount : Z;
  Categories_Edges : slice Edge }
with Variables : Type := mkVariables {
  Variables_Edges : slice Edge;
  Variables_Search : Search;
  Variables_CategorySearch : Search }
with Search : Type := mkSearch {
  Search_Edges : slice Edge }
with Edge : Type := mkEdge {
  Edge_Node : Node }
with Variable' : Type := mkVariable {
  Variable_Name : string }.
#[local] Set Elimination Schemes.

Record RuleBase : Type := mkRuleBase {
  RuleBase_IsSourceOf : Variables;
  RuleBase_Name : string }.

Record DatasetRuleBase : Type := mkDatasetRuleBase {
  DatasetRuleBase_RuleBase : RuleBase }.

Record DatasetVariables : Type := mkDatasetVariables {
  DatasetVariables_Variables : Variables }.

(** The zero values. *)
Definition zero_Variable : Variable' := mkVariable EmptyString.
Definition zero_Search : Search := mkSearch None.
Definition zero_Variables : Variables :=
  mkVariables None zero_Search zero_Search.
Definition zero_Categories : Categories := mkCategories 0 None.
Definition zero_Node : Node :=
  mkNode EmptyString EmptyString EmptyString zero_Categories None EmptyString zero_Variable.
Definition zero_Edge : Edge := mkEdge zero_Node.
Definition zero_RuleBase : RuleBase := mkRuleBase zero_Variables EmptyString.
Definition zero_DatasetRuleBase : DatasetRuleBase :=
  mkDatasetRuleBase zero_RuleBase.
Definition zero_DatasetVariables : DatasetVariables :=
  mkDatasetVariables zero_Variables.

(** ** Decoding, field by field as the json tags name them *)

Definition Variable_step (k : string) (v : json) (c : Variable')
  : Variable' * option error :=
  if is_field "name" k then
    let '(x, e) := decode_string v (Variable_Name c) in (mkVariable x, e)
  else (c, None).

Definition decode_Variable : decoder Variable' := fun j cur =>
  match j with
  | JObj ms => decode_members Variable_step ms cur
  | JNull => (cur, None)
  | _ => (cur, mismatch j "gql.Variable")
  end.

Fixpoint decode_Node (j : json) (cur : Node) {struct j}
  : Node * option error :=
  match j with
  | JObj ms =>
      decode_members (fun k v c =>
        if is_field "name" k then
          let '(x, e) := decode_string v (Node_Name c) in
          (mkNode x (Node_Code c) (Node_Label c) (Node_Categories c)
             (Node_MapFrom c) (Node_FilterOnly c) (Node_Variable c), e)
        else if is_field "code" k then
          let '(x, e) := decode_string v (Node_Code c) in
          (mkNode (Node_Name c) x (Node_Label c) (Node_Categories c)
             (Node_MapFrom c) (Node_FilterOnly c) (Node_Variable c), e)
        else if is_field "label" k then
          let '(x, e) := decode_string v (Node_Label c) in
          (mkNode (Node_Name c) (Node_Code c) x (Node_Categories c)
             (Node_MapFrom c) (Node_FilterOnly c) (Node_Variable c), e)
        else if is_field "categories" k then
          let '(x, e) := decode_Categories v (Node_Categories c) in
          (mkNode (Node_Name c) (Node_Code c) (Node_Label c) x
             (Node_MapFrom c) (Node_FilterOnly c) (Node_Variable c), e)
        else if is_field "mapFrom" k then
          let '(x, e) :=
            decode_slice "[]gql.Variables" zero_Variables decode_Variables
              v (Node_MapFrom c) in
          (mkNode (Node_Name c) (Node_Code c) (Node_Label c)
             (Node_Categories c) x (Node_FilterOnly c) (Node_Variable c), e)
        else if is_field "filterOnly" k then
          let '(x, e) := decode_string v (Node_FilterOnly c) in
          (mkNode (Node_Name c) (Node_Code c) (Node_Label c)
             (Node_Categories c) (Node_MapFrom c) x (Node_Variable c), e)
        else if is_field "variable" k then
          let '(x, e) := decode_Variable v (Node_Variable c) in
          (mkNode (Node_Name c) (Node_Code c) (Node_Label c)
             (Node_Categories c) (Node_MapFrom c) (Node_FilterOnly c) x, e)
        else (c, None)) ms cur
  | JNull => (cur, None)
  | _ => (cur, mismatch j "gql.Node")
  end

with decode_Categories (j : json) (cur : Categories) {struct j}
  : Categories * option error :=
  match j with
  | JObj ms =>
      decode_members (fun k v c =>
        if is_field "totalCount" k then
          let '(x, e) := decode_int v (Categories_TotalCount c) in
          (mkCategories x (Categories_Edges c), e)
        else if is_field "edges" k then
          let '(x, e) :=
            decode_slice "[]gql.Edge" zero_Edge decode_Edge
              v (Categories_Edges c) in
          (mkCategories (Categories_TotalCount c) x, e)
        else (c, None)) ms cur
  | JNull => (cur, None)
  | _ => (cur, mismatch j "gql.Categories")
  end

with decode_Variables (j : json) (cur : Variables) {struct j}
  : Variables * option error :=
  match j with
  | JObj ms =>
      decode_members (fun k v c =>
        if is_field "edges" k then
          let '(x, e) :=
            decode_slice "[]gql.Edge" zero_Edge decode_Edge
              v (Variables_Edges c) in
          (mkVariables x (Variables_Search c) (Variables_CategorySearch c), e)
        else if is_field "search" k then
          let '(x, e) := decode_Search v (Variables_Search c) in
          (mkVariables (Variables_Edges c) x (Variables_CategorySearch c), e)
        else if is_field "categorySearch" k then
          let '(x, e) := decode_Search v (Variables_CategorySearch c) in
          (mkVariables (Variables_Edges c) (Variables_Search c) x, e)
        else (c, None)) ms cur
  | JNull => (cur, None)
  | _ => (cur, mismatch j "gql.Variables")
  end

with decode_Search (j : json) (cur : Search) {struct j}
  : Search * option error :=
  match j with
  | JObj ms =>
      decode_members (fun k v c =>
        if is_field "edges" k then
          let '(x, e) :=
            decode_slice "[]gql.Edge" zero_Edge decode_Edge
              v (Search_Edges c) in
          (mkSearch x, e)
        else (c, None)) ms cur
  | JNull => (cur, None)
  | _ => (cur, mismatch j "gql.Search")
  end

with decode_Edge (j : json) (cur : Edge) {struct j}
  : Edge * option error :=
  match j with
  | JObj ms =>
      decode_members (fun k v c =>
        if is_field "node" k then
          let '(x, e) := decode_Node v (Edge_Node c) in (mkEdge x, e)
        else (c, None)) ms cur
  | JNull => (cur, None)
  | _ => (cur, mismatch j "gql.Edge")
  end.

(** ** Responses that fit the shapes

    A JSON value fits a shape when every member that names a field of the
    shape holds a value of the kind the field accepts; members that name
    no field, missing members, [null] and empty arrays all fit. *)
Definition fits_Variable : json → bool :=
  fits_struct (λ k v, if is_field "name" k then fits_string v else true).

Fixpoint fits_Node (j : json) : bool :=
  match j with
  | JObj ms =>
      forallb (λ kv, let '(k, v) := kv in
        if is_field "name" k then fits_string v
        else if is_field "code" k then fits_string v
        else if is_field "label" k then fits_string v
        else if is_field "categories" k then fits_Categories v
        else if is_field "mapFrom" k then
          match v with
          | JArr items => forallb fits_Variables items
          | JNull => true
          | _ => false
          end
        else if is_field "filterOnly" k then fits_string v
        else if is_field "variable" k then fits_Variable v
        else true) ms
  | JNull => true
  | _ => false
  end

with fits_Categories (j : json) : bool :=
  match j with
  | JObj ms =>
      forallb (λ kv, let '(k, v) := kv in
        if is_field "totalCount" k then fits_int v
        else if is_field "edges" k then
          match v with
          | JArr items => forallb fits_Edge items
          | JNull => true
          | _ => false
          end
        else true) ms
  | JNull => true
  | _ => false
  end

with fits_Variables (j : json) : bool :=
  match j with
  | JObj ms =>
      forallb (λ kv, let '(k, v) := kv in
        if is_field "edges" k then
          match v with
          | JArr items => forallb fits_Edge items
          | JNull => true
          | _ => false
          end
        else if is_field "search" k then fits_Search v
        else if is_field "categorySearch" k then fits_Search v
        else true) ms
  | JNull => true
  | _ => false
  end

with fits_Search (j : json) : bool :=
  match j with
  | JObj ms =>
      forallb (λ kv, let '(k, v) := kv in
        if is_field "edges" k then
          match v with
          | JArr items => forallb fits_Edge items
          | JNull => true
          | _ => false
          end
        else true) ms
  | JNull => true
  | _ => false
  end

with fits_Edge (j : json) : bool :=
  match j with
  | JObj ms =>
      forallb (λ kv, let '(k, v) := kv in
        if is_field "node" k then fits_Node v else true) ms
  | JNull => true
  | _ => false
  end.

Definition fits_RuleBase : json → bool :=
  fits_struct (λ k v,
    if is_field "isSourceOf" k then fits_Variables v
    else if is_field "name" k then fits_string v
    else true).

Definition fits_DatasetRuleBase : json → bool :=
  fits_struct (λ k v, if is_field "ruleBase" k then fits_RuleBase v else true).

Definition fits_DatasetVariables : json → bool :=
  fits_struct (λ k v, if is_field "variables" k then fits_Variables v else true).

Definition decode_RuleBase : decoder RuleBase := fun j cur =>
  match j with
  | JObj ms =>
      decode_members (fun k v c =>
        if is_field "isSourceOf" k then
          let '(x, e) := decode_Variables v (RuleBase_IsSourceOf c) in
          (mkRuleBase x (RuleBase_Name c), e)
        else if is_field "name" k then
          let '(x, e) := decode_string v (RuleBase_Name c) in
          (mkRuleBase (RuleBase_IsSourceOf c) x, e)
        else (c, None)) ms cur
  | JNull => (cur, None)
  | _ => (cur, mismatch j "gql.RuleBase")
  end.

Definition decode_DatasetRuleBase : decoder DatasetRuleBase := fun j cur =>
  match j with
  | JObj ms =>
      decode_members (fun k v c =>
        if is_field "ruleBase" k then
          let '(x, e) := decode_RuleBase v (DatasetRuleBase_RuleBase c) in
          (mkDatasetRuleBase x, e)
        else (c, None)) ms cur
  | JNull => (cur, None)
  | _ => (cur, mismatch j "gql.DatasetRuleBase")
  end.

Definition decode_DatasetVariables : decoder DatasetVariables := fun j cur =>
  match j with
  | JObj ms =>
      decode_members (fun k v c =>
        if is_field "variables" k then
          let '(x, e) := decode_Variables v (DatasetVariables_Variables c) in
          (mkDatasetVariables x, e)
        else (c, None)) ms cur
  | JNull => (cur, None)
  | _ => (cur, mismatch j "gql.DatasetVariables")
  end.

End gql.

Import gql.

(* ===================================================================== *)
(** * net/http, as the clients use it *)
(* ===================================================================== *)

Module http.

(** A response body is an [io.ReadCloser].  The clients only ever call
    [ioutil.ReadAll] and [Close] on it, so it is given by what [ReadAll]
    returns while it is open, what it returns once it has been closed (a
    network body refuses the read, an in-memory body does not care), and
    whether it has been closed. *)
Record Body : Type := mkBody {
  Body_open : string * option error;
  Body_afterClose : string * option error;
  Body_closed : bool }.

Definition ReadAll (b : Body) : string * option error :=
  if Body_closed b then Body_afterClose b else Body_open b.

Definition Close (b : Body) : Body :=
  mkBody (Body_open b) (Body_afterClose b) true.

Record Response : Type := mkResponse {
  StatusCode : Z;
  Header : gmap string (list string);
  Body' : Body }.

Definition CloseBody (r : Response) : Response :=
  mkResponse (StatusCode r) (Header r) (Close (Body' r)).

(** A body held in memory behind [ioutil.NopCloser]. *)
Definition memBody (s : string) : Body := mkBody (s, None) (s, None) false.

(** A body read from the network: after [Close], [Read] fails. *)
Definition netBody (s : string) : Body :=
  mkBody (s, None)
         (EmptyString, Some (ErrNew "http: read on closed response body"))
         false.

End http.

Import http.

(** What a call on the client leaves behind, next to what it returns:
    the response the transport handed over, in the state the call left
    it in, or [None] when the transport handed over none. *)
Definition left_behind : Type := option Response.

(** A call returns, or stops the goroutine with a run-time panic. *)
Inductive run (A : Type) : Type :=
| Return (a : A)
| Panic (why : string).
Arguments Return {A} a.
Arguments Panic {A} why.

(** [json.Unmarshal(b, &v)]: a syntax error leaves [v] alone; otherwise
    [v] is filled as far as the types allow and the first type error, if
    any, is returned. *)
Definition Unmarshal {T : Type} (dec : decoder T) (b : string) (v : T)
  : T * option error :=
  match parse b with
  | Parsed j _ => dec j v
  | SyntaxError => (v, Some ErrSyntax)
  | OutOfFuel => (v, Some ErrSyntax)
  end.

(* ===================================================================== *)
(** * json.Marshal of the values Encode builds *)
(* ===================================================================== *)

Module Marshal.

Definition marshal_strings (l : slice string) : json :=
  match l with
  | None => JNull
  | Some xs => JArr (map JStr xs)
  end.

(** A [map[string]interface{}] is written with its keys sorted. *)
Fixpoint insert_member (kv : string * json) (l : list (string * json))
  : list (string * json) :=
  match l with
  | [] => [kv]
  | x :: r =>
      if String.leb (fst kv) (fst x) then kv :: l
      else x :: insert_member kv r
  end.

Definition sort_members (l : list (string * json)) : list (string * json) :=
  foldr insert_member [] l.

Definition marshal_map (m : gmap string json) : json :=
  JObj (sort_members (map_to_list m)).

(** The member of an object under a key, as a reader of the JSON text
    finds it. *)
Fixpoint member (k : string) (ms : list (string * json)) : option json :=
  match ms with
  | [] => None
  | (k', v) :: r => if String.eqb k k' then Some v else member k r
  end.

Definition field (k : string) (j : json) : option json :=
  match j with
  | JObj ms => member k ms
  | _ => None
  end.

End Marshal.

Import Marshal.

(* ===================================================================== *)
(** * package cantabular *)
(* ===================================================================== *)

Module cantabular.

(** Filter holds the fields for the Cantabular GraphQL Filter object. *)
Record Filter : Type := mkFilter {
  Filter_Codes : slice string;
  Filter_Variable : string }.

(** QueryData holds all the possible required variables to encode any of
    the graphql queries. *)
Record QueryData : Type := mkQueryData {
  QueryData_Dataset : string;
  QueryData_Text : string;
  QueryData_Variables : slice string;
  QueryData_Filters : slice Filter }.

(** A struct is written field by field, in the order of its declaration,
    under the names its tags give. *)
Definition marshal_Filter (f : Filter) : json :=
  JObj [("codes", marshal_strings (Filter_Codes f));
        ("variable", JStr (Filter_Variable f))].

Definition marshal_Filters (l : slice Filter) : json :=
  match l with
  | None => JNull
  | Some fs => JArr (map marshal_Filter fs)
  end.

Definition marshal_QueryData (d : QueryData) : json :=
  JObj [("Dataset", JStr (QueryData_Dataset d));
        ("Text", JStr (QueryData_Text d));
        ("Variables", marshal_strings (QueryData_Variables d));
        ("Filters", marshal_Filters (QueryData_Filters d))].

(** The [vars] map of [Encode], each value as the encoder writes it. *)
Definition Encode_vars (data : QueryData) : gmap string json :=
  let vars : gmap string json :=
    <["text" := JStr (QueryData_Text data)]>
      (<["variables" := marshal_strings (QueryData_Variables data)]>
         (<["dataset" := JStr (QueryData_Dataset data)]> ∅)) in
  if (0 <? len (QueryData_Filters data))%nat
  then <["filters" := marshal_Filters (QueryData_Filters data)]> vars
  else vars.

(** [Encode]: the buffer holds the text of the returned tree, followed by
    a newline.  Strings, slices of strings and structs of those always
    marshal, so the error is nil. *)
Definition Encode (data : QueryData) (query : string) : json * option error :=
  (marshal_map
     (<["variables" := marshal_map (Encode_vars data)]>
        (<["query" := JStr query]> ∅)),
   None).

(** The client: its hosts and its transport.  [httpPost url contentType
    payload] and [httpGet url] stand for the one network call each
    makes, which hands over a response or an error. *)
Record Client : Type := mkClient {
  host : string;
  extApiHost : string;
  httpGet : string → Response + error;
  httpPost : string → string → json → Response + error }.

(** Modelled from the spec: [closeResponseBody] of package cantabular is
    not under src/; like its namesake in package stream it closes the
    body of a response that is not nil. *)
Definition closeResponseBody (res : option Response) : option Response :=
  match res with
  | Some r => Some (CloseBody r)
  | None => None
  end.

(** Modelled from the spec: [Client.errorResponse] is not under src/.
    Section 4.2: it reads whatever error body is present and signals an
    UpstreamError carrying the status code and the best-effort error
    payload. *)
Definition errorResponse (url : string) (res : Response) : error :=
  ErrCoded (ErrNew (fst (ReadAll (Body' res)))) (StatusCode res)
           {[ "url" := JStr url ]}.

Definition graphql_url (c : Client) : string := extApiHost c ++ "/graphql".

(** [postQuery] performs a query against the Cantabular Extended API. *)
Definition postQuery (c : Client) (graphQLQuery : string) (data : QueryData)
  : (option Response * option error) * left_behind :=
  let url := graphql_url c in
  let logData : logData :=
    <["query_data" := marshal_QueryData data]> (<["url" := JStr url]> ∅) in
  match Encode data graphQLQuery with
  | (_, Some err) =>
      ((None, Some (ErrCoded err StatusInternalServerError logData)), None)
  | (b, None) =>
      match httpPost c url "application/json" b with
      | inr err =>
          ((None,
            Some (ErrCoded (ErrWrap "failed to make GraphQL query: %w" err)
                           StatusInternalServerError logData)), None)
      | inl res =>
          if negb (StatusCode res =? StatusOK)%Z then
            let res := CloseBody res in
            ((None, Some (errorResponse url res)), Some res)
          else ((Some res, None), Some res)
      end
  end.

(** [queryUnmarshal] posts the query and un-marshals the response body
    into [v]; the deferred call closes the body on every way out. *)
Definition queryUnmarshal {V : Type} (dec : decoder V) (c : Client)
    (graphQLQuery : string) (data : QueryData) (v : V)
  : run (V * option error * left_behind) :=
  let url := graphql_url c in
  match postQuery c graphQLQuery data with
  | ((_, Some err), lb) => Return (v, Some err, lb)
  | ((None, None), _) => Panic "nil pointer dereference"
  | ((Some res, None), _) =>
      let closed := closeResponseBody (Some res) in
      match ReadAll (Body' res) with
      | (_, Some err) =>
          Return (v,
                  Some (ErrCoded
                          (ErrFmt "failed to read response body: %s" [err])
                          (StatusCode res)
                          {[ "url" := JStr url ]}),
                  closed)
      | (b, None) =>
          match Unmarshal dec b v with
          | (v', Some err) =>
              Return (v',
                      Some (ErrCoded
                              (ErrFmt "failed to unmarshal response body: %s"
                                      [err])
                              StatusInternalServerError
                              (<["response_body" := JStr b]>
                                 (<["url" := JStr url]> ∅))),
                      closed)
          | (v', None) => Return (v', None, closed)
          end
      end
  end.

(** ** codebook.go *)

Section Codebook.

(** The declarations of [GetCodebookRequest] and [GetCodebookResponse]
    and the one-argument [errorResponse] that this file calls are not
    under src/: the response type comes with its decoder and its zero
    value, the [Categories] field with the text [%v] prints for it. *)
Context {Cats Resp : Type}.
Variable show_Categories : Cats → string.
Variable decode_Resp : decoder Resp.
Variable zero_Resp : Resp.
Variable errorResponse1 : Response → error.

Record GetCodebookRequest : Type := mkGetCodebookRequest {
  DatasetName : string;
  Variables' : slice string;
  Categories' : Cats }.

Definition codebook_url (c : Client) (req : GetCodebookRequest) : string :=
  let vars :=
    foldl (fun acc v => acc ++ "&v=" ++ v) EmptyString
          (elems (Variables' req)) in
  host c ++ "/v8/codebook/" ++ DatasetName req ++ "?cats="
       ++ show_Categories (Categories' req) ++ vars.

(** GetCodebook gets a Codebook from cantabular. *)
Definition GetCodebook (c : Client) (req : GetCodebookRequest)
  : (option Resp * option error) * left_behind :=
  let url := codebook_url c req in
  match httpGet c url with
  | inr err =>
      ((None,
        Some (ErrCoded
                (ErrFmt "failed to get response from Cantabular API: %s" [err])
                StatusInternalServerError ∅)), None)
  | inl res =>
      let closed := Some (CloseBody res) in
      if negb (StatusCode res =? StatusOK)%Z then
        ((None, Some (errorResponse1 res)), closed)
      else
        match ReadAll (Body' res) with
        | (b, Some err) =>
            ((None,
              Some (ErrCoded
                      (ErrFmt "failed to read response body: %s" [err])
                      (StatusCode res)
                      {[ "response_body" := JStr b ]})), closed)
        | (b, None) =>
            let b := if (String.length b =? 0)%nat
                     then "[response body empty]" else b in
            match Unmarshal decode_Resp b zero_Resp with
            | (_, Some err) =>
                ((None,
                  Some (ErrCoded
                          (ErrFmt "failed to unmarshal response body: %s" [err])
                          StatusInternalServerError
                          {[ "response_body" := JStr b ]})), closed)
            | (resp, None) => ((Some resp, None), closed)
            end
        end
  end.

End Codebook.

(** ** The dataset list *)

(** Modelled from the spec: [Client.ListDatasets], its query type and the
    GraphQL client it calls are not under src/ (only its test is).
    Section 4.4: the dataset list reads [edges[].node.name] at the top
    variables level and keeps the order of the response.  The test adds
    that an error of the query is handed on with a nil list. *)
Definition datasetNames (q : gql.Variables) : list string :=
  map (fun e => Node_Name (Edge_Node e)) (elems (Variables_Edges q)).

(** Modelled from the spec: [Client.ListDatasets] runs its query through
    the GraphQL client, here [Query], which fills the value it is given,
    and returns the names, or the error of the query. *)
Definition ListDatasets
    (Query : gql.Variables → gql.Variables * option error)
  : slice string * option error :=
  match Query zero_Variables with
  | (_, Some err) => (None, Some err)
  | (q, None) => (Some (datasetNames q), None)
  end.

End cantabular.

(* ===================================================================== *)
(** * package zebedee *)
(* ===================================================================== *)

Module zebedee.

(** Modelled from the spec: the declarations of [Related],
    [DatasetLandingPage] and [PageTitle] are not under src/.  They are
    given the fields that [GetDatasetLandingPage] reads and writes, under
    the keys that [json.Unmarshal] matches to those field names. *)
Record Related : Type := mkRelated {
  Title : string;
  URI : string }.

Record DatasetLandingPage : Type := mkDatasetLandingPage {
  RelatedDatasets : slice Related;
  RelatedDocuments : slice Related;
  RelatedMethodology : slice Related;
  RelatedMethodologyArticle : slice Related }.

Record PageTitle : Type := mkPageTitle {
  PageTitle_Title : string }.

Definition zero_Related : Related := mkRelated EmptyString EmptyString.
Definition zero_DatasetLandingPage : DatasetLandingPage :=
  mkDatasetLandingPage None None None None.
Definition zero_PageTitle : PageTitle := mkPageTitle EmptyString.

Definition Related_step (k : string) (v : json) (c : Related)
  : Related * option error :=
  if is_field "title" k then
    let '(x, e) := decode_string v (Title c) in (mkRelated x (URI c), e)
  else if is_field "uri" k then
    let '(x, e) := decode_string v (URI c) in (mkRelated (Title c) x, e)
  else (c, None).

Definition decode_Related : decoder Related := fun j cur =>
  match j with
  | JObj ms => decode_members Related_step ms cur
  | JNull => (cur, None)
  | _ => (cur, mismatch j "zebedee.Related")
  end.

Definition decode_Relateds : decoder (slice Related) :=
  decode_slice "[]zebedee.Related" zero_Related decode_Related.

Definition DatasetLandingPage_step (k : string) (v : json)
    (c : DatasetLandingPage) : DatasetLandingPage * option error :=
  if is_field "relatedDatasets" k then
    let '(x, e) := decode_Relateds v (RelatedDatasets c) in
    (mkDatasetLandingPage x (RelatedDocuments c) (RelatedMethodology c)
       (RelatedMethodologyArticle c), e)
  else if is_field "relatedDocuments" k then
    let '(x, e) := decode_Relateds v (RelatedDocuments c) in
    (mkDatasetLandingPage (RelatedDatasets c) x (RelatedMethodology c)
       (RelatedMethodologyArticle c), e)
  else if is_field "relatedMethodology" k then
    let '(x, e) := decode_Relateds v (RelatedMethodology c) in
    (mkDatasetLandingPage (RelatedDatasets c) (RelatedDocuments c) x
       (RelatedMethodologyArticle c), e)
  else if is_field "relatedMethodologyArticle" k then
    let '(x, e) := decode_Relateds v (RelatedMethodologyArticle c) in
    (mkDatasetLandingPage (RelatedDatasets c) (RelatedDocuments c)
       (RelatedMethodology c) x, e)
  else (c, None).

Definition decode_DatasetLandingPage : decoder DatasetLandingPage :=
  fun j cur =>
    match j with
    | JObj ms => decode_members DatasetLandingPage_step ms cur
    | JNull => (cur, None)
    | _ => (cur, mismatch j "zebedee.DatasetLandingPage")
    end.

Definition PageTitle_step (k : string) (v : json) (c : PageTitle)
  : PageTitle * option error :=
  if is_field "title" k then
    let '(x, e) := decode_string v (PageTitle_Title c) in (mkPageTitle x, e)
  else (c, None).

Definition decode_PageTitle : decoder PageTitle := fun j cur =>
  match j with
  | JObj ms => decode_members PageTitle_step ms cur
  | JNull => (cur, None)
  | _ => (cur, mismatch j "zebedee.PageTitle")
  end.

(** ** Requests *)

(** What [ctx.Value] finds under a key: a string or a value of another
    type. *)
Inductive any : Type :=
| AnyString (s : string)
| AnyOther.

Record Context : Type := mkContext {
  CollectionID : option any;      (* common.CollectionIDHeaderKey *)
  Locale : option any }.          (* common.LocaleHeaderKey *)

(** The type assertion [.(string)]: the zero value when it fails. *)
Definition as_string (v : any) : string :=
  match v with AnyString s => s | AnyOther => EmptyString end.

(** [url.PathEscape]. *)
Definition is_alnum (c : ascii) : bool :=
  let n := code c in
  ((97 <=? n)%N && (n <=? 122)%N) || ((65 <=? n)%N && (n <=? 90)%N)
  || ((48 <=? n)%N && (n <=? 57)%N).

Definition shouldEscape (c : ascii) : bool :=
  let n := code c in
  if is_alnum c then false
  else if (n =? 45)%N || (n =? 95)%N || (n =? 46)%N || (n =? 126)%N
  then false                                   (* - _ . ~ *)
  else if (n =? 36)%N || (n =? 38)%N || (n =? 43)%N || (n =? 58)%N
          || (n =? 61)%N || (n =? 64)%N
  then false                                   (* $ & + : = @ *)
  else true.

Definition hex_digit (n : N) : ascii :=
  if (n <? 10)%N then ascii_of_N (48 + n) else ascii_of_N (55 + n).

Fixpoint PathEscape (s : string) : string :=
  match s with
  | EmptyString => EmptyString
  | String c r =>
      if shouldEscape c
      then String (ascii_of_N 37)
             (String (hex_digit (code c / 16))
                (String (hex_digit (code c mod 16)) (PathEscape r)))
      else String c (PathEscape r)
  end.

Definition createRequestURL (ctx : Context) (path query : string) : string :=
  let path :=
    match CollectionID ctx with
    | Some v => path ++ "/" ++ as_string v
    | None => path
    end in
  let path := path ++ "?" ++ PathEscape query in
  match Locale ctx with
  | Some v => path ++ "&lang=" ++ as_string v
  | None => path
  end.

Record Request : Type := mkRequest {
  Method : string;
  URL : string;
  URL_Path : string;
  Request_Header : gmap string (list string) }.

(** [common.AddFlorenceHeader] of go-ns. *)
Definition FlorenceHeaderKey : string := "X-Florence-Token".

Definition AddFlorenceHeader (r : Request) (accessToken : string) : Request :=
  if (0 <? String.length accessToken)%nat then
    mkRequest (Method r) (URL r) (URL_Path r)
      (<[FlorenceHeaderKey :=
           app (default [] (Request_Header r !! FlorenceHeaderKey))
               [accessToken]]>
         (Request_Header r))
  else r.

Section Client.

(** [http.NewRequest] parses the URL: [url_Parse u] is the path it finds
    in [u], or the error it reports. *)
Variable url_Parse : string → string + error.

Definition NewRequest (method url : string) : Request + error :=
  match url_Parse url with
  | inr err => inr err
  | inl p => inl (mkRequest method url p ∅)
  end.

(** Client represents a zebedee client. *)
Record Client : Type := mkClient {
  cli_Do : Request → Response + error;
  url : string }.

Definition get (c : Client) (userAccessToken path : string)
  : string * option (gmap string (list string)) * option error :=
  match NewRequest "GET" (url c ++ path) with
  | inr err => (EmptyString, None, Some err)
  | inl req =>
      let req := AddFlorenceHeader req userAccessToken in
      match cli_Do c req with
      | inr err => (EmptyString, None, Some err)
      | inl resp =>
          if (StatusCode resp <? 200)%Z || (399 <? StatusCode resp)%Z then
            (EmptyString, None,
             Some (ErrInvalidZebedeeResponse (StatusCode resp) (URL_Path req)))
          else
            let '(b, err) := ReadAll (Body' resp) in
            (b, Some (Header resp), err)
      end
  end.

(** GetPageTitle retrieves a page title from zebedee. *)
Definition GetPageTitle (c : Client) (ctx : Context)
    (userAccessToken uri : string) : PageTitle * option error :=
  let reqURL := createRequestURL ctx "/data" ("uri=" ++ uri ++ "&title") in
  match get c userAccessToken reqURL with
  | (_, _, Some err) => (zero_PageTitle, Some err)
  | (b, _, None) => Unmarshal decode_PageTitle b zero_PageTitle
  end.

(** ** GetDatasetLandingPage *)

Section LandingPage.

Variable c : Client.
Variable ctx : Context.
Variable userAccessToken : string.

(** What one goroutine of the fan-out does with its entry [e]: it asks
    for the page title, drops the error, and stores the title of what
    came back. *)
Definition setTitle (t : string) (e : Related) : Related :=
  mkRelated t (URI e).

Definition resolve (e : Related) : Related :=
  setTitle (PageTitle_Title (fst (GetPageTitle c ctx userAccessToken (URI e)))) e.

(** [related]: the four slices, sharing their arrays with [dlp]. *)
Definition related (dlp : DatasetLandingPage) : list (list Related) :=
  [elems (RelatedDatasets dlp); elems (RelatedDocuments dlp);
   elems (RelatedMethodology dlp); elems (RelatedMethodologyArticle dlp)].

(** The page once every goroutine has written its title. *)
Definition resolved (dlp : DatasetLandingPage) : DatasetLandingPage :=
  mkDatasetLandingPage
    (option_map (map resolve) (RelatedDatasets dlp))
    (option_map (map resolve) (RelatedDocuments dlp))
    (option_map (map resolve) (RelatedMethodology dlp))
    (option_map (map resolve) (RelatedMethodologyArticle dlp)).

(** GetDatasetLandingPage returns a DatasetLandingPage populated with
    data from a zebedee response.  If an error is returned there is a
    chance that a partly completed DatasetLandingPage is returned. *)
Definition GetDatasetLandingPage (path : string)
  : DatasetLandingPage * option error :=
  let reqURL := createRequestURL ctx "/data" ("uri=" ++ path) in
  match get c userAccessToken reqURL with
  | (_, _, Some err) => (zero_DatasetLandingPage, Some err)
  | (b, _, None) =>
      match Unmarshal decode_DatasetLandingPage b zero_DatasetLandingPage with
      | (dlp, Some err) => (dlp, Some err)
      | (dlp, None) => (resolved dlp, None)
      end
  end.

(** *** The fan-out, step by step

    The main goroutine walks the entries; for each it sends on [sem],
    adds one to [wg] and starts a goroutine.  A goroutine fetches the
    title, writes it into its slot, and on its way out receives from
    [sem] and calls [wg.Done].  After the loops the main goroutine waits
    for [wg] to reach zero. *)
Definition workers : nat := 10.

(** The arguments of one goroutine: which slice, which index, and the
    copy of the entry. *)
Record task : Type := mkTask {
  task_element : nat;
  task_i : nat;
  task_e : Related }.

Inductive phase : Type :=
| Fetching                   (* before GetPageTitle returns *)
| Fetched (t : PageTitle)    (* before element[i].Title = t.Title *)
| Written                    (* before the receive from sem *)
| Released.                  (* before wg.Done *)

Inductive pc : Type :=
| AtSend       (* at the head of the loop body, or leaving the loops *)
| AtAdd        (* after sem <- 1 *)
| AtGo         (* after wg.Add(1) *)
| AtWait       (* in wg.Wait *)
| Returned.

Record state : Type := mkState {
  main : pc;
  todo : list task;
  sem : nat;
  wg : nat;
  procs : list (task * phase);
  heap : list (list Related) }.

Definition tasks_of (a : nat) (l : list Related) : list task :=
  imap (λ i e, mkTask a i e) l.

Definition all_tasks (arrays : list (list Related)) : list task :=
  mjoin (imap tasks_of arrays).

Definition init (arrays : list (list Related)) : state :=
  mkState AtSend (all_tasks arrays) 0 0 [] arrays.

(** [element[i].Title = t]. *)
Definition write (a i : nat) (t : string) (h : list (list Related))
  : list (list Related) :=
  alter (alter (setTitle t) i) a h.

Inductive step : state → state → Prop :=
| step_send t r n w ps h :
    n < workers →
    step (mkState AtSend (t :: r) n w ps h)
         (mkState AtAdd (t :: r) (S n) w ps h)
| step_add td n w ps h :
    step (mkState AtAdd td n w ps h) (mkState AtGo td n (S w) ps h)
| step_go t r n w ps h :
    step (mkState AtGo (t :: r) n w ps h)
         (mkState AtSend r n w (app ps [(t, Fetching)]) h)
| step_leave n w ps h :
    step (mkState AtSend [] n w ps h) (mkState AtWait [] n w ps h)
| step_wait td n ps h :
    step (mkState AtWait td n 0 ps h) (mkState Returned td n 0 ps h)
| step_fetch m td n w p1 t p2 h :
    step (mkState m td n w (app p1 ((t, Fetching) :: p2)) h)
         (mkState m td n w
            (app p1
               ((t, Fetched
                      (fst (GetPageTitle c ctx userAccessToken
                              (URI (task_e t)))))
                :: p2)) h)
| step_write m td n w p1 t pt p2 h :
    step (mkState m td n w (app p1 ((t, Fetched pt) :: p2)) h)
         (mkState m td n w (app p1 ((t, Written) :: p2))
            (write (task_element t) (task_i t) (PageTitle_Title pt) h))
| step_release m td n w p1 t p2 h :
    step (mkState m td (S n) w (app p1 ((t, Written) :: p2)) h)
         (mkState m td n w (app p1 ((t, Released) :: p2)) h)
| step_done m td n w p1 t p2 h :
    step (mkState m td n (S w) (app p1 ((t, Released) :: p2)) h)
         (mkState m td n w (app p1 p2) h).

(** The goroutines that hold a place in [sem]. *)
Definition holds_place (p : task * phase) : nat :=
  match snd p with
  | Released => 0
  | _ => 1
  end.

Definition in_flight (s : state) : nat := sum_list_with holds_place (procs s).

(** The page the caller gets when the main goroutine has returned. *)
Definition page_of (dlp : DatasetLandingPage) (h : list (list Related))
  : DatasetLandingPage :=
  mkDatasetLandingPage
    (option_map (λ _, h !!! 0%nat) (RelatedDatasets dlp))
    (option_map (λ _, h !!! 1%nat) (RelatedDocuments dlp))
    (option_map (λ _, h !!! 2%nat) (RelatedMethodology dlp))
    (option_map (λ _, h !!! 3%nat) (RelatedMethodologyArticle dlp)).

(** Steps left: seven for an entry not yet started, fewer as it moves
    on, two for the main goroutine to leave the loops and the wait. *)
Definition phase_left (p : task * phase) : nat :=
  match snd p with
  | Fetching => 4
  | Fetched _ => 3
  | Written => 2
  | Released => 1
  end.

Definition main_left (m : pc) : nat :=
  match m with
  | AtSend => 2
  | AtAdd => 1
  | AtGo => 0
  | AtWait => 1
  | Returned => 0
  end.

Definition steps_left (s : state) : nat :=
  7 * List.length (todo s) + sum_list_with phase_left (procs s)
  + main_left (main s).

End LandingPage.

(** ** The other calls on zebedee *)

(** Get returns a response for the requested uri in zebedee. *)
Definition Get (c : Client) (userAccessToken path : string)
  : string * option error :=
  let '(b, _, err) := get c userAccessToken path in (b, err).

(** GetWithHeaders returns a response for the requested uri in zebedee,
    providing the headers too. *)
Definition GetWithHeaders (c : Client) (userAccessToken path : string)
  : string * option (gmap string (list string)) * option error :=
  get c userAccessToken path.

(** [strconv.Itoa]. *)
Definition Itoa (z : Z) : string := NilZero.string_of_int (Z.to_int z).

Section Dataset.

(** Modelled from the spec: the declarations of [Breadcrumb], [Dataset],
    [Download], [SupplementaryFile], [FileSize] and
    [TimeseriesMainFigure] are not under src/.  [Download],
    [SupplementaryFile] and [FileSize] are given the fields that
    [GetDataset] reads and writes, [Dataset] those two lists and
    whatever else it holds; the decoders of the types come with them. *)
Context {Breadcrumb TimeseriesMainFigure Rest : Type}.

Record Download : Type := mkDownload {
  Download_File : string;
  Download_Size : string }.

Record SupplementaryFile : Type := mkSupplementaryFile {
  SupplementaryFile_File : string;
  SupplementaryFile_Title : string;
  SupplementaryFile_Size : string }.

Record FileSize : Type := mkFileSize {
  FileSize_Size : Z }.

Record Dataset : Type := mkDataset {
  Downloads : slice Download;
  SupplementaryFiles : slice SupplementaryFile;
  Dataset_rest : Rest }.

Variable zero_Rest : Rest.
Variable zero_TimeseriesMainFigure : TimeseriesMainFigure.
Variable decode_Breadcrumbs : decoder (slice Breadcrumb).
Variable decode_Dataset : decoder Dataset.
Variable decode_FileSize : decoder FileSize.
Variable decode_TimeseriesMainFigure : decoder TimeseriesMainFigure.

Variable c : Client.
Variable ctx : Context.
Variable userAccessToken : string.

Definition zero_FileSize : FileSize := mkFileSize 0.
Definition zero_Dataset : Dataset := mkDataset None None zero_Rest.

(** GetBreadcrumb returns a Breadcrumb. *)
Definition GetBreadcrumb (uri : string) : slice Breadcrumb * option error :=
  match get c userAccessToken ("/parents?uri=" ++ uri) with
  | (_, _, Some err) => (None, Some err)
  | (b, _, None) =>
      match Unmarshal decode_Breadcrumbs b None with
      | (_, Some err) => (None, Some err)
      | (parentsJSON, None) => (parentsJSON, None)
      end
  end.

(** GetFileSize retrieves a given filesize from zebedee. *)
Definition GetFileSize (uri : string) : FileSize * option error :=
  let reqURL := createRequestURL ctx "/filesize" ("uri=" ++ uri) in
  match get c userAccessToken reqURL with
  | (_, _, Some err) => (zero_FileSize, Some err)
  | (b, _, None) => Unmarshal decode_FileSize b zero_FileSize
  end.

Definition GetTimeseriesMainFigure (uri : string)
  : TimeseriesMainFigure * option error :=
  let reqURL := createRequestURL ctx "/data" ("uri=" ++ uri) in
  match get c userAccessToken reqURL with
  | (_, _, Some err) => (zero_TimeseriesMainFigure, Some err)
  | (b, _, None) =>
      Unmarshal decode_TimeseriesMainFigure b zero_TimeseriesMainFigure
  end.

(** The first loop of [GetDataset]: [downloads] holds what has been
    appended so far; the loop stops at the first file whose size cannot
    be had. *)
Fixpoint size_downloads (uri : string) (l : list Download)
    (downloads : list Download) : list Download * option error :=
  match l with
  | [] => (downloads, None)
  | v :: r =>
      match GetFileSize (uri ++ "/" ++ Download_File v) with
      | (_, Some err) => (downloads, Some err)
      | (fs, None) =>
          size_downloads uri r
            (app downloads
               [mkDownload (Download_File v) (Itoa (FileSize_Size fs))])
      end
  end.

(** The second loop. *)
Fixpoint size_supplementaryFiles (uri : string) (l : list SupplementaryFile)
    (supplementaryFiles : list SupplementaryFile)
  : list SupplementaryFile * option error :=
  match l with
  | [] => (supplementaryFiles, None)
  | v :: r =>
      match GetFileSize (uri ++ "/" ++ SupplementaryFile_File v) with
      | (_, Some err) => (supplementaryFiles, Some err)
      | (fs, None) =>
          size_supplementaryFiles uri r
            (app supplementaryFiles
               [mkSupplementaryFile (SupplementaryFile_File v)
                  (SupplementaryFile_Title v) (Itoa (FileSize_Size fs))])
      end
  end.

(** GetDataset returns details about a dataset from zebedee. *)
Definition GetDataset (uri : string) : Dataset * option error :=
  let reqURL := createRequestURL ctx "/data" ("uri=" ++ uri) in
  match get c userAccessToken reqURL with
  | (_, _, Some err) => (zero_Dataset, Some err)
  | (b, _, None) =>
      match Unmarshal decode_Dataset b zero_Dataset with
      | (d, Some err) => (d, Some err)
      | (d, None) =>
          match size_downloads uri (elems (Downloads d)) [] with
          | (_, Some err) => (d, Some err)
          | (downloads, None) =>
              let d :=
                mkDataset (Some downloads) (SupplementaryFiles d)
                          (Dataset_rest d) in
              match size_supplementaryFiles uri
                      (elems (SupplementaryFiles d)) [] with
              | (_, Some err) => (d, Some err)
              | (supplementaryFiles, None) =>
                  (mkDataset (Downloads d) (Some supplementaryFiles)
                             (Dataset_rest d), None)
              end
          end
      end
  end.

End Dataset.

End Client.

End zebedee.

(* ===================================================================== *)
(** * package identity *)
(* ===================================================================== *)

Module identity.

(** Names of go-ns/common. *)
Definition FlorenceHeaderKey : string := "X-Florence-Token".
Definition AuthHeaderKey : string := "Authorization".
Definition UserHeaderKey : string := "User-Identity".
Definition UserIdentityKey : string := "User-Identity".
Definition CallerIdentityKey : string := "Caller-Identity".

(** A [context.Context] by the values put into it, the latest first. *)
Definition Context : Type := list (string * string).

Definition WithValue (ctx : Context) (k v : string) : Context := (k, v) :: ctx.

(** [http.Header]: the values under each canonical key. *)
Definition Header : Type := gmap string (list string).

(** [Header.Get]: the first value under the key, or the empty string. *)
Definition Get (h : Header) (k : string) : string :=
  match h !! k with
  | Some (v :: _) => v
  | _ => EmptyString
  end.

Definition Set_ (h : Header) (k v : string) : Header := <[k := [v]]> h.

(** The incoming request. *)
Record Request : Type := mkRequest {
  Request_Header : Header;
  Request_Context : Context }.

(** The request sent to the auth API. *)
Record Outbound : Type := mkOutbound {
  Outbound_Method : string;
  Outbound_URL : string;
  Outbound_Header : Header }.

(** [common.IdentityResponse] of go-ns. *)
Record IdentityResponse : Type := mkIdentityResponse {
  Identifier : string }.

Definition IdentityResponse_step (k : string) (v : json) (c : IdentityResponse)
  : IdentityResponse * option error :=
  if is_field "identifier" k then
    let '(x, e) := decode_string v (Identifier c) in (mkIdentityResponse x, e)
  else (c, None).

(** Decoding through a pointer: [null] makes it nil, any other value
    allocates the struct when the pointer is nil. *)
Definition decode_IdentityResponse_ptr : decoder (option IdentityResponse) :=
  fun j cur =>
    let target := default (mkIdentityResponse EmptyString) cur in
    match j with
    | JNull => (None, None)
    | JObj ms =>
        let '(x, e) := decode_members IdentityResponse_step ms target in
        (Some x, e)
    | _ => (Some target, mismatch j "common.IdentityResponse")
    end.

(** unmarshalIdentityResponse converts a resp.Body (JSON) into an
    IdentityResponse. *)
Definition unmarshalIdentityResponse (resp : Response)
  : option IdentityResponse * option error :=
  match ReadAll (Body' resp) with
  | (_, Some err) => (None, Some err)
  | (b, None) => Unmarshal decode_IdentityResponse_ptr b None
  end.

(** ** splitTokens, for the log *)

Record tokenObject : Type := mkTokenObject {
  numberOfParts : nat;
  hasPrefix : bool;
  tokenPart : string }.

Definition prefix : string := "Bearer ".

(** [len(strings.Split(token, sep))] for the separator of one space. *)
Fixpoint count_parts (s : string) : nat :=
  match s with
  | EmptyString => 1
  | String c r => if (code c =? 32)%N then S (count_parts r) else count_parts r
  end.

Fixpoint drop_bytes (n : nat) (s : string) : string :=
  match n, s with
  | S n, String _ r => drop_bytes n r
  | _, _ => s
  end.

Definition splitToken (token : string) : tokenObject :=
  mkTokenObject
    (count_parts token)
    (String.prefix prefix token)
    (if (6 <? String.length token)%nat
     then drop_bytes (String.length token - 6) token
     else token).

Definition zero_tokenObject : tokenObject := mkTokenObject 0 false EmptyString.

Definition splitTokens (florenceToken authToken : string)
  : tokenObject * tokenObject :=
  (if (0 <? String.length florenceToken)%nat
   then splitToken florenceToken else zero_tokenObject,
   if (0 <? String.length authToken)%nat
   then splitToken authToken else zero_tokenObject).

(** ** CheckRequest *)

Definition Doer : Type := Outbound → Response + error.

Record IdentityClient : Type := mkIdentityClient {
  HTTPClient : option Doer;
  BaseURL : string }.

Section CheckRequest.

(** [http.NewRequest] accepts the URL or reports an error;
    [rchttp.NewClient] is the transport of a client built without one. *)
Variable url_error : string → option error.
Variable rchttp_NewClient : Doer.

(** What [CheckRequest] returns, and the requests it has sent to the auth
    API on the way. *)
Definition result : Type :=
  run (option Context * Z * option error) * list Outbound.

(** CheckRequest calls the AuthAPI to check florenceToken or authToken. *)
Definition CheckRequest (api : IdentityClient) (req : Request) : result :=
  let ctx := Request_Context req in
  let florenceToken := Get (Request_Header req) FlorenceHeaderKey in
  let authToken := Get (Request_Header req) AuthHeaderKey in
  let isUserReq := (0 <? String.length florenceToken)%nat in
  let isServiceReq := (0 <? String.length authToken)%nat in
  if negb isUserReq && negb isServiceReq then
    (Return (Some ctx, StatusOK, None), [])
  else
    let url := BaseURL api ++ "/identity" in
    match url_error url with
    | Some err => (Return (None, 0%Z, Some err), [])
    | None =>
        let outboundAuthReq :=
          mkOutbound "GET" url
            (if isUserReq
             then Set_ ∅ FlorenceHeaderKey florenceToken
             else Set_ ∅ AuthHeaderKey authToken) in
        let client := default rchttp_NewClient (HTTPClient api) in
        match client outboundAuthReq with
        | inr err => (Return (None, 0%Z, Some err), [outboundAuthReq])
        | inl resp =>
            if negb (StatusCode resp =? StatusOK)%Z then
              (Return (None, StatusCode resp, None), [outboundAuthReq])
            else
              match unmarshalIdentityResponse resp with
              | (_, Some err) =>
                  (Return (None, 0%Z, Some err), [outboundAuthReq])
              | (None, None) =>
                  (Panic "nil pointer dereference", [outboundAuthReq])
              | (Some identityResp, None) =>
                  let userIdentity :=
                    if isUserReq then Identifier identityResp
                    else Get (Request_Header req) UserHeaderKey in
                  let ctx := WithValue ctx UserIdentityKey userIdentity in
                  let ctx :=
                    WithValue ctx CallerIdentityKey (Identifier identityResp) in
                  (Return (Some ctx, StatusOK, None), [outboundAuthReq])
              end
        end
    end.

End CheckRequest.

End identity.

(* ===================================================================== *)
(** * package stream *)
(* ===================================================================== *)

Module stream.

(** closeResponseBody closes the response body when there is one. *)
Definition closeResponseBody (body : option Body) : option Body :=
  match body with
  | Some b => Some (Close b)
  | None => None
  end.

Section Stream.

(** A [Transformer] and a [Consumer] are Go functions over the two ends
    of an [io.Pipe].  [run_pipe transform consume body] is what the two
    goroutines have stored in [errTransform] and [errConsume] when
    [wg.Wait] returns. *)
Context {Transformer Consumer : Type}.
Variable run_pipe :
  Transformer → Consumer → option Body → option error * option error.

(** Stream blocks until all work is complete, at which point the body is
    closed and any error is returned. *)
Definition Stream (body : option Body) (transform : Transformer)
    (consume : Consumer) : option error * option Body :=
  let '(errTransform, errConsume) := run_pipe transform consume body in
  let body := closeResponseBody body in
  match errTransform, errConsume with
  | Some et, Some ec =>
      (Some (ErrFmt "transform error: %v, consumer error: %v" [et; ec]), body)
  | Some et, None => (Some (ErrWrap "transform error: %w" et), body)
  | None, Some ec => (Some (ErrWrap "consumer error: %w" ec), body)
  | None, None => (None, body)
  end.

End Stream.

End stream.

(* ===================================================================== *)
(** * Sample inputs *)
(* ===================================================================== *)

Module Samples.

(** A JSON text written with an apostrophe where the text has a double
    quote. *)
Fixpoint json_text (s : string) : string :=
  match s with
  | EmptyString => EmptyString
  | String c r =>
      String (if (code c =? 39)%N then ascii_of_N 34 else c) (json_text r)
  end.

Definition respond (status : Z) (body : Body) : Response :=
  mkResponse status ∅ body.

(** A Cantabular client whose transport answers every call with the
    given response. *)
Definition client_answering (res : Response) : cantabular.Client :=
  cantabular.mkClient "cantabular.host" "cantabular.ext.host"
    (λ _, inl res) (λ _ _ _, inl res).

Definition dimensions_query : cantabular.QueryData :=
  cantabular.mkQueryData "Example" EmptyString None None.

(** A 200 response that carries an error member. *)
Definition error_body : string :=
  json_text "{'error':'dataset not found','variables':{'edges':[]}}".

(** A response to the dimensions query: one variable, no mapFrom, and a
    member the shapes do not know. *)
Definition dimensions_body : string :=
  json_text
    ("{'variables':{'edges':[{'node':{'name':'city','label':'City',"
     ++ "'mapFrom':[],'categories':{'totalCount':3}}}]},'extensions':{}}").

Definition error_response : Response := respond 200 (netBody error_body).

(** The [dataset] object of a response to each query of the catalog:
    the two table queries, dimensions (also by name), geography
    dimensions, dimension search and area search. *)
Definition catalog_responses : list string :=
  map json_text
    [ "{'table':{'dimensions':[{'count':2,'variable':{'name':'sex','label':"
      ++ "'Sex'},'categories':[{'code':'0','label':'Male'}]}],'values':[1,2],"
      ++ "'error':null}}";
      "{'table':{'dimensions':[{'variable':{'name':'sex','label':'Sex'},"
      ++ "'categories':[{'code':'0','label':'Male'}]}],'values':null,"
      ++ "'error':'withinMaxCells'}}";
      "{'variables':{'edges':[{'node':{'name':'city','mapFrom':[{'edges':"
      ++ "[{'node':{'filterOnly':'false','label':'OA','name':'oa'}}]}],"
      ++ "'label':'City','categories':{'totalCount':3}}},{'node':{'name':"
      ++ "'sex','mapFrom':[],'label':'Sex','categories':{'totalCount':2}}}]}}";
      "{'ruleBase':{'name':'region','isSourceOf':{'edges':[{'node':{'name':"
      ++ "'country','mapFrom':[{'edges':[{'node':{'filterOnly':'false',"
      ++ "'label':'Region','name':'region'}}]}],'label':'Country',"
      ++ "'categories':{'totalCount':2}}}]}}}";
      "{'variables':{'search':{'edges':[{'node':{'name':'city','label':"
      ++ "'City','mapFrom':[{'totalCount':1,'edges':[{'node':{'name':'oa',"
      ++ "'label':'OA'}}]}]}}]}}}";
      "{'ruleBase':{'isSourceOf':{'categorySearch':{'edges':[{'node':{'code':"
      ++ "'E12000001','label':'Hartlepool','variable':{'mapFrom':[{'edges':"
      ++ "[{'node':{'name':'oa','label':'OA'}}]}],'name':'city'}}}]}}}}";
      "{'variables':{'edges':[]},'ruleBase':null}" ].

(** The dataset list of the test: two names. *)
Definition dataset_list_body : string :=
  json_text
    "{'edges':[{'node':{'name':'dataset 1'}},{'node':{'name':'dataset 2'}}]}".

(** A landing page whose second list is not a list. *)
Definition broken_page_body : string :=
  json_text "{'relatedDatasets':[{'uri':'/a'}],'relatedDocuments':7}".

Definition zebedee_answering (res : Response) : zebedee.Client :=
  zebedee.mkClient (λ _, inl res) "http://zebedee".

Definition no_context : zebedee.Context := zebedee.mkContext None None.

(** A zebedee that fails for one page and answers for the others. *)
Definition flaky : zebedee.Client :=
  zebedee.mkClient
    (λ req,
       if String.eqb (zebedee.URL req) "http://zebedee/data?uri=%2Fbad&title"
       then inr (ErrNew "connection refused")
       else inl (respond 200 (memBody (json_text "{'title':'Good page'}"))))
    "http://zebedee".

(** A landing page with two related entries, in two of its lists. *)
Definition two_entries : zebedee.DatasetLandingPage :=
  zebedee.mkDatasetLandingPage
    (Some [zebedee.mkRelated "stale" "/bad"])
    None
    (Some [zebedee.mkRelated EmptyString "/good"])
    None.

(** The state in which the fan-out over [two_entries] ends. *)
Definition two_entries_done : zebedee.state :=
  zebedee.mkState zebedee.Returned [] 0 0 []
    [[zebedee.mkRelated EmptyString "/bad"]; [];
     [zebedee.mkRelated "Good page" "/good"]; []].


(** A zebedee that serves the pages of a table, by URL, and answers 404
    for any other. *)
Fixpoint page_at (table : list (string * string)) (u : string)
  : option string :=
  match table with
  | [] => None
  | (k, body) :: r => if String.eqb k u then Some body else page_at r u
  end.

Definition zebedee_serving (table : list (string * string))
  : zebedee.Client :=
  zebedee.mkClient
    (λ req, match page_at table (zebedee.URL req) with
            | Some body => inl (respond 200 (memBody (json_text body)))
            | None => inl (respond 404 (memBody EmptyString))
            end)
    "http://zebedee".

(** Decoders for the dataset page and the file size, for the samples. *)
Definition sample_Download_step (k : string) (v : json)
    (c : zebedee.Download) : zebedee.Download * option error :=
  if is_field "file" k then
    let '(x, e) := decode_string v (zebedee.Download_File c) in
    (zebedee.mkDownload x (zebedee.Download_Size c), e)
  else (c, None).

Definition sample_decode_Download : decoder zebedee.Download := fun j cur =>
  match j with
  | JObj ms => decode_members sample_Download_step ms cur
  | JNull => (cur, None)
  | _ => (cur, mismatch j "zebedee.Download")
  end.

Definition sample_Supplementary_step (k : string) (v : json)
    (c : zebedee.SupplementaryFile) : zebedee.SupplementaryFile * option error :=
  if is_field "file" k then
    let '(x, e) := decode_string v (zebedee.SupplementaryFile_File c) in
    (zebedee.mkSupplementaryFile x (zebedee.SupplementaryFile_Title c)
       (zebedee.SupplementaryFile_Size c), e)
  else if is_field "title" k then
    let '(x, e) := decode_string v (zebedee.SupplementaryFile_Title c) in
    (zebedee.mkSupplementaryFile (zebedee.SupplementaryFile_File c) x
       (zebedee.SupplementaryFile_Size c), e)
  else (c, None).

Definition sample_decode_Supplementary : decoder zebedee.SupplementaryFile :=
  fun j cur =>
    match j with
    | JObj ms => decode_members sample_Supplementary_step ms cur
    | JNull => (cur, None)
    | _ => (cur, mismatch j "zebedee.SupplementaryFile")
    end.

Definition sample_Dataset_step (k : string) (v : json)
    (c : zebedee.Dataset (Rest := unit)) : zebedee.Dataset * option error :=
  if is_field "downloads" k then
    let '(x, e) :=
      decode_slice "[]zebedee.Download" (zebedee.mkDownload EmptyString EmptyString)
        sample_decode_Download v (zebedee.Downloads c) in
    (zebedee.mkDataset x (zebedee.SupplementaryFiles c) tt, e)
  else if is_field "supplementaryFiles" k then
    let '(x, e) :=
      decode_slice "[]zebedee.SupplementaryFile"
        (zebedee.mkSupplementaryFile EmptyString EmptyString EmptyString)
        sample_decode_Supplementary v (zebedee.SupplementaryFiles c) in
    (zebedee.mkDataset (zebedee.Downloads c) x tt, e)
  else (c, None).

Definition sample_decode_Dataset : decoder (zebedee.Dataset (Rest := unit)) :=
  fun j cur =>
    match j with
    | JObj ms => decode_members sample_Dataset_step ms cur
    | JNull => (cur, None)
    | _ => (cur, mismatch j "zebedee.Dataset")
    end.

Definition sample_FileSize_step (k : string) (v : json) (c : zebedee.FileSize)
  : zebedee.FileSize * option error :=
  if is_field "fileSize" k then
    let '(x, e) := decode_int v (zebedee.FileSize_Size c) in
    (zebedee.mkFileSize x, e)
  else (c, None).

Definition sample_decode_FileSize : decoder zebedee.FileSize := fun j cur =>
  match j with
  | JObj ms => decode_members sample_FileSize_step ms cur
  | JNull => (cur, None)
  | _ => (cur, mismatch j "zebedee.FileSize")
  end.

Definition dataset_page : string :=
  "{'downloads':[{'file':'a.csv'},{'file':'b.xls'}],"
  ++ "'supplementaryFiles':[{'file':'n.pdf','title':'Notes'}]}".

(** Every file has a size. *)
Definition all_files : zebedee.Client :=
  zebedee_serving
    [("http://zebedee/data?uri=%2Fds", dataset_page);
     ("http://zebedee/filesize?uri=%2Fds%2Fa.csv", "{'fileSize':120}");
     ("http://zebedee/filesize?uri=%2Fds%2Fb.xls", "{'fileSize':7}");
     ("http://zebedee/filesize?uri=%2Fds%2Fn.pdf", "{'fileSize':0}")].

(** The second download is missing. *)
Definition missing_download : zebedee.Client :=
  zebedee_serving
    [("http://zebedee/data?uri=%2Fds", dataset_page);
     ("http://zebedee/filesize?uri=%2Fds%2Fa.csv", "{'fileSize':120}");
     ("http://zebedee/filesize?uri=%2Fds%2Fn.pdf", "{'fileSize':0}")].

(** The supplementary file is missing. *)
Definition missing_supplement : zebedee.Client :=
  zebedee_serving
    [("http://zebedee/data?uri=%2Fds", dataset_page);
     ("http://zebedee/filesize?uri=%2Fds%2Fa.csv", "{'fileSize':120}");
     ("http://zebedee/filesize?uri=%2Fds%2Fb.xls", "{'fileSize':7}")].

(** A service request on behalf of a user, and an auth API that answers
    every request with one response. *)
Definition service_request : identity.Request :=
  identity.mkRequest
    {[ "Authorization" := ["Bearer xyz"]; "User-Identity" := ["sam"] ]}
    [("request-id", "42")].

Definition both_tokens : identity.Request :=
  identity.mkRequest
    {[ "X-Florence-Token" := ["abc"]; "Authorization" := ["Bearer xyz"] ]}
    [].

Definition auth_answering (res : Response) : identity.IdentityClient :=
  identity.mkIdentityClient (Some (λ _, inl res)) "http://auth".

End Samples.

(* ===================================================================== *)
(** * Vocabulary of the properties *)
(* ===================================================================== *)

(** What a call of the scanner is expected to do with enough fuel: it
    does not run out, and what it leaves is shorter than what it got. *)
Definition consumes (s : string) (p : parsed json) : Prop :=
  p ≠ OutOfFuel
  ∧ ∀ v r, p = Parsed v r → (String.length r < String.length s)%nat.

(** The response that lists the given names, one edge per name. *)
Definition listing (names : list string) : gql.Variables :=
  mkVariables
    (Some (map (λ n, mkEdge (mkNode n EmptyString EmptyString zero_Categories None EmptyString
                               zero_Variable)) names))
    zero_Search zero_Search.

(** The members of an object other than those under the key [error]. *)
Definition without_error (j : json) : json :=
  match j with
  | JObj ms => JObj (filter (λ kv, is_field "error" kv.1 = false) ms)
  | _ => j
  end.

(** A decoder accepts what fits: no type error, whatever it stores
    into. *)
Definition accepts {T : Type} (fits : json → bool) (dec : decoder T)
    (j : json) : Prop :=
  fits j = true → ∀ cur, snd (dec j cur) = None.

Definition accepts_all (j : json) : Prop :=
  accepts fits_Node decode_Node j
  ∧ accepts fits_Categories decode_Categories j
  ∧ accepts fits_Variables decode_Variables j
  ∧ accepts fits_Search decode_Search j
  ∧ accepts fits_Edge decode_Edge j.

(** The object has no member for the field, or only [null]. *)
Definition missing (name : string) (ms : list (string * json)) : Prop :=
  ∀ k v, (k, v) ∈ ms → is_field name k = true → v = JNull.

Definition Node_zero_where_missing (ms : list (string * json)) (n : Node)
  : Prop :=
  (missing "name" ms → Node_Name n = EmptyString)
  ∧ (missing "code" ms → Node_Code n = EmptyString)
  ∧ (missing "label" ms → Node_Label n = EmptyString)
  ∧ (missing "categories" ms → Node_Categories n = zero_Categories)
  ∧ (missing "mapFrom" ms → Node_MapFrom n = None)
  ∧ (missing "filterOnly" ms → Node_FilterOnly n = EmptyString)
  ∧ (missing "variable" ms → Node_Variable n = zero_Variable).

Definition Categories_zero_where_missing (ms : list (string * json))
    (x : Categories) : Prop :=
  (missing "totalCount" ms → Categories_TotalCount x = 0%Z)
  ∧ (missing "edges" ms → Categories_Edges x = None).

Definition Variables_zero_where_missing (ms : list (string * json))
    (x : Variables) : Prop :=
  (missing "edges" ms → Variables_Edges x = None)
  ∧ (missing "search" ms → Variables_Search x = zero_Search)
  ∧ (missing "categorySearch" ms → Variables_CategorySearch x = zero_Search).

(** ** The fan-out *)

Section FanOutInvariant.

Import zebedee.

Variable url_Parse : string → string + error.
Variable c : zebedee.Client.
Variable ctx : zebedee.Context.
Variable token : string.

Local Abbreviation resolve := (zebedee.resolve url_Parse c ctx token).

(** The entry at index [i] of array [a]. *)
Definition slot (h : list (list Related)) (a i : nat) : option Related :=
  h !! a ≫= (λ l, l !! i).

(** What holds in every state the fan-out can reach. *)
Definition sending (m : pc) : nat :=
  match m with AtAdd | AtGo => 1 | _ => 0 end.

Definition added (m : pc) : nat :=
  match m with AtGo => 1 | _ => 0 end.

Definition wrote (ph : phase) : Prop :=
  ph = Written ∨ ph = Released.

Record Inv (arrays : list (list Related)) (s : state) : Prop := mkInv {
  inv_sem : sem s = in_flight s + sending (main s);
  inv_wg : wg s = List.length (procs s) + added (main s);
  inv_cap : (sem s ≤ workers)%nat;
  inv_head : sending (main s) = 1 → todo s ≠ [];
  inv_tail : main s = AtWait ∨ main s = Returned → todo s = [];
  inv_join : main s = Returned → procs s = [];
  inv_lengths : map List.length (heap s) = map List.length arrays;
  inv_shape : ∀ a i e0, slot arrays a i = Some e0 →
      slot (heap s) a i = Some e0 ∨ slot (heap s) a i = Some (resolve e0);
  inv_todo : ∀ t, t ∈ todo s →
      slot arrays (task_element t) (task_i t) = Some (task_e t);
  inv_procs : ∀ t ph, (t, ph) ∈ procs s →
      slot arrays (task_element t) (task_i t) = Some (task_e t);
  inv_fetched : ∀ t pt, (t, Fetched pt) ∈ procs s →
      pt = fst (GetPageTitle url_Parse c ctx token (URI (task_e t)));
  inv_wrote : ∀ t ph, (t, ph) ∈ procs s → wrote ph →
      slot (heap s) (task_element t) (task_i t) = Some (resolve (task_e t));
  inv_cover : ∀ a i e0, slot arrays a i = Some e0 →
      mkTask a i e0 ∈ todo s
      ∨ (∃ ph, (mkTask a i e0, ph) ∈ procs s)
      ∨ slot (heap s) a i = Some (resolve e0) }.

End FanOutInvariant.

(** ** The sizes of GetDataset *)

Section Sized.

Variable url_Parse : string → string + error.
Variable decode_FileSize : decoder zebedee.FileSize.
Variable c : zebedee.Client.
Variable ctx : zebedee.Context.
Variable token : string.

(** The size that [GetFileSize] reports for a file of the dataset, as
    [GetDataset] writes it down. *)
Definition size_of (uri file : string) : string :=
  zebedee.Itoa
    (zebedee.FileSize_Size
       (fst (zebedee.GetFileSize url_Parse decode_FileSize c ctx token
               (uri ++ "/" ++ file)))).

(** The error, if any, of asking for that size. *)
Definition size_error (uri file : string) : option error :=
  snd (zebedee.GetFileSize url_Parse decode_FileSize c ctx token
         (uri ++ "/" ++ file)).

Definition sized_download (uri : string) (v : zebedee.Download)
  : zebedee.Download :=
  zebedee.mkDownload (zebedee.Download_File v)
    (size_of uri (zebedee.Download_File v)).

Definition sized_supplementaryFile (uri : string)
    (v : zebedee.SupplementaryFile) : zebedee.SupplementaryFile :=
  zebedee.mkSupplementaryFile (zebedee.SupplementaryFile_File v)
    (zebedee.SupplementaryFile_Title v)
    (size_of uri (zebedee.SupplementaryFile_File v)).

(** The page of the dataset and the error of fetching it, as
    [GetDataset] gets them. *)
Definition fetched (uri : string) : string * option error :=
  let '(b, _, err) :=
    zebedee.get url_Parse c token
      (zebedee.createRequestURL ctx "/data" ("uri=" ++ uri)) in
  (b, err).

End Sized.


(** The response body, as a JSON value, that lists the given names: one
    edge per name, each a node with that name. *)
Definition names_json (names : list string) : json :=
  JObj [("edges",
         JArr (map (λ n, JObj [("node", JObj [("name", JStr n)])]) names))].

(* ===================================================================== *)
(** * Properties *)
(* ===================================================================== *)

Import cantabular.

(** ** The query encoder *)

Example Encode_no_filters :
  Encode (mkQueryData "census" EmptyString (Some ["age"; "sex"]) None) "query{}"
  = (JObj [("query", JStr "query{}");
           ("variables",
            JObj [("dataset", JStr "census");
                  ("text", JStr EmptyString);
                  ("variables", JArr [JStr "age"; JStr "sex"])])],
     None).
Proof. vm_compute. reflexivity. Qed.

Example Encode_one_filter :
  Encode (mkQueryData "census" EmptyString None
            (Some [mkFilter (Some ["0"; "1"]) "sex"])) "query{}"
  = (JObj [("query", JStr "query{}");
           ("variables",
            JObj [("dataset", JStr "census");
                  ("filters",
                   JArr [JObj [("codes", JArr [JStr "0"; JStr "1"]);
                               ("variable", JStr "sex")]]);
                  ("text", JStr EmptyString);
                  ("variables", JNull)])],
     None).
Proof. vm_compute. reflexivity. Qed.

(** C1. For every QueryData and query template, Encode writes a JSON
    object with the members "query" and "variables"; the "variables"
    object always has the keys "dataset", "variables" and "text", it has
    the key "filters" exactly when Filters is not empty, and then the
    value is the array of the filters in their order, each one an object
    with "codes" and "variable". *)
Theorem C1_Encode_keys (data : QueryData) (query : string) :
  ∃ vars : list (string * json),
    Encode data query
    = (JObj [("query", JStr query); ("variables", JObj vars)], None)
    ∧ member "dataset" vars = Some (JStr (QueryData_Dataset data))
    ∧ member "variables" vars
      = Some (marshal_strings (QueryData_Variables data))
    ∧ member "text" vars = Some (JStr (QueryData_Text data))
    ∧ (is_Some (member "filters" vars)
       ↔ (0 < len (QueryData_Filters data))%nat)
    ∧ (∀ f fs, QueryData_Filters data = Some (f :: fs) →
         member "filters" vars
         = Some (JArr (map (λ x, JObj [("codes", marshal_strings (Filter_Codes x));
                                        ("variable", JStr (Filter_Variable x))])
                           (f :: fs)))).
Proof.
  destruct data as [d t vs [[|f fs]|]].
  - eexists. split; [vm_compute; reflexivity|].
    repeat split; try (vm_compute; reflexivity); simpl.
    + intros [x Hx]. discriminate.
    + unfold len; simpl. lia.
    + intros ? ? [=].
  - eexists. split; [vm_compute; reflexivity|].
    repeat split; try (vm_compute; reflexivity); simpl.
    + unfold len; simpl. lia.
    + intros _. eexists. reflexivity.
    + intros ? ? [= <- <-]. reflexivity.
  - eexists. split; [vm_compute; reflexivity|].
    repeat split; try (vm_compute; reflexivity); simpl.
    + intros [x Hx]. discriminate.
    + unfold len; simpl. lia.
    + intros ? ? [=].
Qed.

(** ** The scanner *)

Example parse_object :
  parse (Samples.json_text "{'a': [1, -2.5e3, 'x'], 'b' : { } , 'c':null}")
  = Parsed (JObj [("a", JArr [JNum "1"; JNum "-2.5e3"; JStr "x"]);
                  ("b", JObj []); ("c", JNull)]) EmptyString.
Proof. vm_compute. reflexivity. Qed.

Example parse_trailing_comma : parse "[1,]" = SyntaxError.
Proof. vm_compute. reflexivity. Qed.

Example parse_empty : parse EmptyString = SyntaxError.
Proof. vm_compute. reflexivity. Qed.

Lemma parse_placeholder : parse "[response body empty]" = SyntaxError.
Proof. vm_compute. reflexivity. Qed.

(** *** The fuel is enough *)

Lemma skip_space_length (s : string) :
  (String.length (skip_space s) ≤ String.length s)%nat.
Proof.
  induction s as [|c s IH]; simpl; [lia|].
  destruct (is_space c); simpl; lia.
Qed.

Lemma span_digits_length (s ds r : string) :
  span_digits s = (ds, r) → (String.length r ≤ String.length s)%nat.
Proof.
  revert ds r. induction s as [|c s IH]; simpl; intros ds r H.
  - injection H as <- <-. simpl. lia.
  - destruct (is_digit c).
    + destruct (span_digits s) as [ds' r'] eqn:E.
      injection H as <- <-. specialize (IH _ _ eq_refl). lia.
    + injection H as <- <-. simpl. lia.
Qed.

Lemma scan_int_length (s i r : string) :
  scan_int s = Some (i, r) → (String.length r < String.length s)%nat.
Proof.
  destruct s as [|c s]; simpl; [discriminate|].
  destruct (code c =? 48)%N.
  - intros [= <- <-]. lia.
  - destruct (is_digit c); [|discriminate].
    destruct (span_digits s) as [ds r'] eqn:E. intros [= <- <-].
    apply span_digits_length in E. lia.
Qed.

Lemma scan_frac_length (s f r : string) :
  scan_frac s = Some (f, r) → (String.length r ≤ String.length s)%nat.
Proof.
  destruct s as [|c s]; simpl; [intros [= <- <-]; simpl; lia|].
  destruct (code c =? 46)%N.
  - destruct (span_digits s) as [ds r'] eqn:E.
    destruct (nonempty ds); [|discriminate]. intros [= <- <-].
    apply span_digits_length in E. lia.
  - intros [= <- <-]. simpl. lia.
Qed.

Lemma scan_exp_length (s e r : string) :
  scan_exp s = Some (e, r) → (String.length r ≤ String.length s)%nat.
Proof.
  destruct s as [|c s]; simpl; [intros [= <- <-]; simpl; lia|].
  destruct (_ || _).
  - destruct (scan_sign s) as [sg r1] eqn:E1.
    destruct (span_digits r1) as [ds r2] eqn:E2.
    destruct (nonempty ds); [|discriminate]. intros [= <- <-].
    apply span_digits_length in E2.
    assert (String.length r1 ≤ String.length s)%nat.
    { destruct s as [|d s]; simpl in E1.
      - injection E1 as <- <-. simpl. lia.
      - destruct (_ || _); injection E1 as <- <-; simpl; lia. }
    lia.
  - intros [= <- <-]. simpl. lia.
Qed.

Lemma scan_number_length (s lit r : string) :
  scan_number s = Some (lit, r) → (String.length r < String.length s)%nat.
Proof.
  unfold scan_number.
  set (p := match s with
            | String c r0 => if (code c =? 45)%N then (String c EmptyString, r0)
                             else (EmptyString, s)
            | EmptyString => (EmptyString, s)
            end).
  assert (String.length (snd p) ≤ String.length s)%nat as Hp.
  { subst p. destruct s as [|c s]; simpl; [lia|].
    destruct (code c =? 45)%N; simpl; lia. }
  destruct p as [sg s1]. simpl in Hp.
  destruct (scan_int s1) as [[i s2]|] eqn:E1; [|discriminate].
  destruct (scan_frac s2) as [[f s3]|] eqn:E2; [|discriminate].
  destruct (scan_exp s3) as [[e s4]|] eqn:E3; [|discriminate].
  intros [= <- <-].
  apply scan_int_length in E1. apply scan_frac_length in E2.
  apply scan_exp_length in E3. lia.
Qed.

Lemma scan_string_length (n : nat) (s : string) (ts : list token) (r : string) :
  (String.length s ≤ n)%nat →
  scan_string s = Some (ts, r) → (String.length r < String.length s)%nat.
Proof.
  revert s ts r. induction n as [|n IH]; intros s ts r Hn.
  - destruct s; [discriminate|simpl in Hn; lia].
  - destruct s as [|c s]; [discriminate|]. simpl in Hn. simpl.
    destruct (code c =? 34)%N; [intros [= <- <-]; lia|].
    destruct (code c =? 92)%N.
    + destruct s as [|e s1]; [discriminate|].
      destruct (code e =? 117)%N.
      * destruct s1 as [|h1 [|h2 [|h3 [|h4 r2]]]]; try discriminate.
        destruct (hex4 h1 h2 h3 h4); [|discriminate].
        destruct (scan_string r2) as [[ts' r3]|] eqn:E; [|discriminate].
        intros [= <- <-]. apply IH in E; simpl in *; lia.
      * destruct (simple_escape e); [|discriminate].
        destruct (scan_string s1) as [[ts' r3]|] eqn:E; [|discriminate].
        intros [= <- <-]. apply IH in E; simpl in *; lia.
    + destruct (code c <? 32)%N; [discriminate|].
      destruct (scan_string s) as [[ts' r3]|] eqn:E; [|discriminate].
      intros [= <- <-]. apply IH in E; simpl in *; lia.
Qed.

Lemma scan_quoted_length (s k r : string) :
  scan_quoted s = Some (k, r) → (String.length r < String.length s)%nat.
Proof.
  unfold scan_quoted.
  destruct (scan_string s) as [[ts r']|] eqn:E; [|discriminate].
  intros [= <- <-]. eapply scan_string_length; [reflexivity|exact E].
Qed.

Lemma strip_prefix_length (p s r : string) :
  strip_prefix p s = Some r →
  String.length s = (String.length p + String.length r)%nat.
Proof.
  revert s. induction p as [|a p IH]; simpl; intros s.
  - intros [= <-]. reflexivity.
  - destruct s as [|b s]; [discriminate|].
    destruct (Ascii.eqb a b); [|discriminate].
    intros H. apply IH in H. simpl. lia.
Qed.

Lemma consumes_error (s : string) : consumes s SyntaxError.
Proof. split; [discriminate|]. intros v r [=]. Qed.

Lemma consumes_parsed (s : string) (v : json) (r : string) :
  (String.length r < String.length s)%nat → consumes s (Parsed v r).
Proof. intros H. split; [discriminate|]. intros v' r' [= <- <-]. exact H. Qed.

Lemma consumes_longer (s s' : string) (p : parsed json) :
  (String.length s ≤ String.length s')%nat → consumes s p → consumes s' p.
Proof.
  intros Hle [H1 H2]. split; [exact H1|].
  intros v r Hp. specialize (H2 v r Hp). lia.
Qed.

Lemma scan_enough (n : nat) :
  (∀ d s, (2 * String.length s < n)%nat → consumes s (scan_value n d s))
  ∧ (∀ d s acc, (2 * String.length s + 1 < n)%nat →
       consumes s (scan_items n d s acc))
  ∧ (∀ d s acc, (2 * String.length s + 1 < n)%nat →
       consumes s (scan_members n d s acc)).
Proof.
  induction n as [|n (IHv & IHi & IHm)]; [repeat split; intros; lia|].
  repeat apply conj.
  - intros d s Hn. destruct s as [|c r]; [apply consumes_error|].
    simpl in Hn. pose proof (skip_space_length r) as Hsp.
    cbn [scan_value].
    destruct (code c =? 123)%N.
    { destruct (maxNestingDepth <? d + 1)%N; [apply consumes_error|].
      destruct (skip_space r) as [|e r1] eqn:E; [apply consumes_error|].
      destruct (code e =? 125)%N.
      - apply consumes_parsed. simpl in *. lia.
      - eapply consumes_longer; [|apply IHm]; simpl in *; lia. }
    destruct (code c =? 91)%N.
    { destruct (maxNestingDepth <? d + 1)%N; [apply consumes_error|].
      destruct (skip_space r) as [|e r1] eqn:E; [apply consumes_error|].
      destruct (code e =? 93)%N.
      - apply consumes_parsed. simpl in *. lia.
      - eapply consumes_longer; [|apply IHi]; simpl in *; lia. }
    destruct (code c =? 34)%N.
    { destruct (scan_quoted r) as [[v r1]|] eqn:E; [|apply consumes_error].
      apply scan_quoted_length in E. apply consumes_parsed. simpl. lia. }
    destruct (_ || _).
    { destruct (scan_number (String c r)) as [[lit r1]|] eqn:E;
        [|apply consumes_error].
      apply scan_number_length in E. apply consumes_parsed. exact E. }
    destruct (strip_prefix "true" (String c r)) as [r1|] eqn:E1.
    { apply strip_prefix_length in E1. apply consumes_parsed.
      simpl in *. lia. }
    destruct (strip_prefix "false" (String c r)) as [r1|] eqn:E2.
    { apply strip_prefix_length in E2. apply consumes_parsed.
      simpl in *. lia. }
    destruct (strip_prefix "null" (String c r)) as [r1|] eqn:E3.
    { apply strip_prefix_length in E3. apply consumes_parsed.
      simpl in *. lia. }
    apply consumes_error.
  - intros d s acc Hn. cbn [scan_items].
    destruct (IHv d s ltac:(lia)) as [Hfuel Hrest].
    destruct (scan_value n d s) as [v r| |];
      [|apply consumes_error|congruence].
    specialize (Hrest v r eq_refl).
    pose proof (skip_space_length r) as Hsp.
    destruct (skip_space r) as [|e r1] eqn:E; [apply consumes_error|].
    pose proof (skip_space_length r1) as Hsp1.
    destruct (code e =? 44)%N.
    { eapply consumes_longer; [|apply IHi]; simpl in *; lia. }
    destruct (code e =? 93)%N; [|apply consumes_error].
    apply consumes_parsed. simpl in *. lia.
  - intros d s acc Hn. cbn [scan_members].
    destruct s as [|q r]; [apply consumes_error|]. simpl in Hn.
    destruct (code q =? 34)%N; [|apply consumes_error].
    destruct (scan_quoted r) as [[k r1]|] eqn:Ek; [|apply consumes_error].
    apply scan_quoted_length in Ek.
    pose proof (skip_space_length r1) as Hsp1.
    destruct (skip_space r1) as [|e r2] eqn:E1; [apply consumes_error|].
    destruct (code e =? 58)%N; [|apply consumes_error].
    pose proof (skip_space_length r2) as Hsp2.
    destruct (IHv d (skip_space r2) ltac:(simpl in *; lia)) as [Hfuel Hrest].
    destruct (scan_value n d (skip_space r2)) as [v r3| |];
      [|apply consumes_error|congruence].
    specialize (Hrest v r3 eq_refl).
    pose proof (skip_space_length r3) as Hsp3.
    destruct (skip_space r3) as [|e' r4] eqn:E3; [apply consumes_error|].
    pose proof (skip_space_length r4) as Hsp4.
    destruct (code e' =? 44)%N.
    { eapply consumes_longer; [|apply IHm]; simpl in *; lia. }
    destruct (code e' =? 125)%N; [|apply consumes_error].
    apply consumes_parsed. simpl in *. lia.
Qed.

(** [parse] never runs out of fuel: a text is JSON or it is not. *)
Lemma parse_total (b : string) : parse b ≠ OutOfFuel.
Proof.
  unfold parse.
  pose proof (skip_space_length b) as Hsp.
  destruct (proj1 (scan_enough (S (2 * String.length b))) 0%N (skip_space b)
              ltac:(lia)) as [Hfuel _].
  destruct (scan_value _ _) as [v r| |]; [|discriminate|congruence].
  destruct (skip_space r); discriminate.
Qed.

(** ** GetCodebook *)

(** C10. A 200 response from the codebook endpoint with a body of zero
    bytes makes GetCodebook return a nil response and an error: the body
    is replaced by the placeholder, which is not JSON, so the error is the
    one for a failed unmarshal, with status 500 and the placeholder as
    response_body. *)
Theorem C10_GetCodebook_empty_body
    {Cats Resp : Type} (show : Cats → string) (dec : decoder Resp)
    (zero : Resp) (errorResponse1 : Response → error)
    (c : Client) (req : GetCodebookRequest) (res : Response) :
  httpGet c (codebook_url show c req) = inl res →
  StatusCode res = StatusOK →
  ReadAll (Body' res) = (EmptyString, None) →
  GetCodebook show dec zero errorResponse1 c req
  = ((None,
      Some (ErrCoded
              (ErrFmt "failed to unmarshal response body: %s" [ErrSyntax])
              StatusInternalServerError
              {[ "response_body" := JStr "[response body empty]" ]})),
     Some (CloseBody res)).
Proof.
  intros Hget Hstatus Hread. unfold GetCodebook.
  rewrite Hget, Hstatus, Hread.
  change (negb (StatusOK =? StatusOK)%Z) with false.
  change (String.length EmptyString =? 0)%nat with true.
  cbv iota zeta. unfold Unmarshal. rewrite parse_placeholder. reflexivity.
Qed.

Lemma C10_witness :
  GetCodebook (Cats := bool) (λ b : bool, if b then "true" else "false")
    decode_DatasetVariables zero_DatasetVariables
    (λ r, ErrNew "unexpected status")
    (Samples.client_answering (Samples.respond 200 (netBody EmptyString)))
    (mkGetCodebookRequest "Example" (Some ["city"; "sex"]) true)
  = ((None,
      Some (ErrCoded
              (ErrFmt "failed to unmarshal response body: %s" [ErrSyntax])
              StatusInternalServerError
              {[ "response_body" := JStr "[response body empty]" ]})),
     Some (CloseBody (Samples.respond 200 (netBody EmptyString)))).
Proof.
  apply (C10_GetCodebook_empty_body (Cats := bool)); reflexivity.
Defined.

(** ** postQuery *)



(** On a body read from the network the same call finds nothing left to
    read. *)
Example postQuery_network_body :
  fst (postQuery
         (Samples.client_answering
            (Samples.respond 404 (netBody "dataset not found")))
         "query" Samples.dimensions_query)
  = (None,
     Some (ErrCoded (ErrNew EmptyString) 404
             {[ "url" := JStr "cantabular.ext.host/graphql" ]})).
Proof. reflexivity. Qed.

(** ** The dataset list *)

Lemma datasetNames_listing (names : list string) :
  datasetNames (listing names) = names.
Proof.
  unfold datasetNames, listing; simpl.
  induction names as [|n names IH]; simpl; [reflexivity|].
  f_equal. exact IH.
Qed.

(** C5. The dataset list is the list of [edges[].node.name] in the order
    of the response, nothing added and nothing left out; for the sample
    response with the names "dataset 1" and "dataset 2" ListDatasets
    returns exactly those two, in that order. *)
Theorem C5_ListDatasets_order :
  (∀ names : list string,
      ListDatasets (λ _, (listing names, None)) = (Some names, None))
  ∧ ListDatasets (Unmarshal decode_Variables Samples.dataset_list_body)
    = (Some ["dataset 1"; "dataset 2"], None).
Proof.
  split.
  - intros names. unfold ListDatasets.
    rewrite datasetNames_listing. reflexivity.
  - vm_compute. reflexivity.
Qed.

(** ** identity.CheckRequest *)

(** C8. A request with neither a Florence token nor a service auth token
    gets its own context back, status 200 and a nil error, and no request
    is sent to the auth API. *)
Theorem C8_CheckRequest_no_tokens
    (url_error : string → option error) (newClient : identity.Doer)
    (api : identity.IdentityClient) (req : identity.Request) :
  identity.Get (identity.Request_Header req) identity.FlorenceHeaderKey
  = EmptyString →
  identity.Get (identity.Request_Header req) identity.AuthHeaderKey
  = EmptyString →
  identity.CheckRequest url_error newClient api req
  = (Return (Some (identity.Request_Context req), StatusOK, None), []).
Proof.
  intros Hf Ha. unfold identity.CheckRequest.
  rewrite Hf, Ha. reflexivity.
Qed.

Lemma C8_witness :
  identity.CheckRequest (λ _, None) (λ _, inr (ErrNew "unreachable"))
    (identity.mkIdentityClient None "http://auth")
    (identity.mkRequest {[ "Accept" := ["application/json"] ]}
                        [("request-id", "42")])
  = (Return (Some [("request-id", "42")], StatusOK, None), []).
Proof.
  apply (C8_CheckRequest_no_tokens (λ _, None)
           (λ _, inr (ErrNew "unreachable"))
           (identity.mkIdentityClient None "http://auth")
           (identity.mkRequest {[ "Accept" := ["application/json"] ]}
                               [("request-id", "42")]));
    vm_compute; reflexivity.
Defined.

(** With a token the auth API is called once. *)
Example CheckRequest_with_token :
  identity.CheckRequest (λ _, None)
    (λ _, inl (Samples.respond 200
                 (memBody (Samples.json_text "{'identifier':'alice'}"))))
    (identity.mkIdentityClient None "http://auth")
    (identity.mkRequest {[ "X-Florence-Token" := ["token"] ]} [])
  = (Return (Some [("Caller-Identity", "alice"); ("User-Identity", "alice")],
             StatusOK, None),
     [identity.mkOutbound "GET" "http://auth/identity"
        {[ "X-Florence-Token" := ["token"] ]}]).
Proof. vm_compute. reflexivity. Qed.

(** ** stream.Stream *)

(** C9. Stream returns nil exactly when the transformer and the consumer
    both returned nil; when one of them returned an error, Stream returns
    an error that wraps it; when both did, Stream returns one error whose
    text reports the two. *)
Theorem C9_Stream_errors
    {Transformer Consumer : Type}
    (run_pipe : Transformer → Consumer → option Body
                → option error * option error)
    (body : option Body) (transform : Transformer) (consume : Consumer) :
  let errTransform := fst (run_pipe transform consume body) in
  let errConsume := snd (run_pipe transform consume body) in
  let result := fst (stream.Stream run_pipe body transform consume) in
  (result = None ↔ errTransform = None ∧ errConsume = None)
  ∧ (∀ e, errTransform = Some e → errConsume = None →
       result = Some (ErrWrap "transform error: %w" e)
       ∧ (result ≫= Unwrap) = Some e)
  ∧ (∀ e, errTransform = None → errConsume = Some e →
       result = Some (ErrWrap "consumer error: %w" e)
       ∧ (result ≫= Unwrap) = Some e)
  ∧ (∀ e1 e2, errTransform = Some e1 → errConsume = Some e2 →
       result
       = Some (ErrFmt "transform error: %v, consumer error: %v" [e1; e2])).
Proof.
  unfold stream.Stream.
  destruct (run_pipe transform consume body) as [[et|] [ec|]]; simpl;
    repeat split; try congruence; try (intros; simplify_eq; done);
    try (intros [? ?]; congruence).
Qed.

(** ** queryUnmarshal *)

(** A member that names no field of the target is skipped. *)
Lemma decode_members_skip {T : Type}
    (step : string → json → T → T * option error) (skip : string → bool)
    (ms : list (string * json)) (cur : T) :
  (∀ k v c, skip k = true → step k v c = (c, None)) →
  decode_members step ms cur
  = decode_members step (filter (λ kv, skip kv.1 = false) ms) cur.
Proof.
  intros Hskip. revert cur.
  induction ms as [|[k v] ms IH]; intros cur; [reflexivity|].
  rewrite filter_cons. simpl. destruct (skip k) eqn:E.
  - rewrite decide_False by discriminate.
    rewrite (Hskip k v cur E). rewrite IH.
    destruct (decode_members _ _ cur); reflexivity.
  - rewrite decide_True by reflexivity. simpl.
    destruct (step k v cur) as [c1 e1]. rewrite IH. reflexivity.
Qed.

Lemma is_field_eq (a b k : string) :
  is_field a k = true → is_field b k = true → fold_name a = fold_name b.
Proof.
  unfold is_field. intros Ha Hb.
  apply String.eqb_eq in Ha, Hb. congruence.
Qed.

Lemma decode_DatasetVariables_error (j : json) (v : DatasetVariables) :
  decode_DatasetVariables j v = decode_DatasetVariables (without_error j) v.
Proof.
  destruct j; try reflexivity. simpl.
  apply (decode_members_skip _ (is_field "error")).
  intros k x c Hk. destruct (is_field "variables" k) eqn:E; [|reflexivity].
  pose proof (is_field_eq _ _ _ Hk E) as H. vm_compute in H. discriminate.
Qed.

Lemma decode_DatasetRuleBase_error (j : json) (v : DatasetRuleBase) :
  decode_DatasetRuleBase j v = decode_DatasetRuleBase (without_error j) v.
Proof.
  destruct j; try reflexivity. simpl.
  apply (decode_members_skip _ (is_field "error")).
  intros k x c Hk. destruct (is_field "ruleBase" k) eqn:E; [|reflexivity].
  pose proof (is_field_eq _ _ _ Hk E) as H. vm_compute in H. discriminate.
Qed.

(** C2, as the code has it.  When the POST returns 200 and the body is
    JSON that the target accepts, queryUnmarshal returns nil and leaves
    the decoded value in [v], whatever the body says under [error]: for
    the two dataset shapes the member is skipped, so the decoded value is
    the one of the body without it.  A GraphQL-level error has to be
    looked for by the caller. *)
Theorem C2_queryUnmarshal_ignores_error
    {V : Type} (dec : decoder V) (c : Client) (query : string)
    (data : QueryData) (v : V) (res : Response) (b rest : string) (j : json) :
  httpPost c (graphql_url c) "application/json" (fst (Encode data query))
  = inl res →
  StatusCode res = StatusOK →
  ReadAll (Body' res) = (b, None) →
  parse b = Parsed j rest →
  snd (dec j v) = None →
  queryUnmarshal dec c query data v
  = Return (fst (dec j v), None, Some (CloseBody res))
  ∧ (∀ x, decode_DatasetVariables j x
          = decode_DatasetVariables (without_error j) x)
  ∧ (∀ x, decode_DatasetRuleBase j x
          = decode_DatasetRuleBase (without_error j) x).
Proof.
  intros Hpost Hstatus Hread Hparse Hdec. split; [|split].
  - unfold queryUnmarshal, postQuery. simpl in *. rewrite Hpost, Hstatus.
    change (negb (StatusOK =? StatusOK)%Z) with false. cbv iota.
    rewrite Hread. unfold Unmarshal. rewrite Hparse.
    destruct (dec j v) as [v' e]. simpl in Hdec. subst e. reflexivity.
  - intros x. apply decode_DatasetVariables_error.
  - intros x. apply decode_DatasetRuleBase_error.
Qed.

Lemma C2_witness :
  queryUnmarshal decode_DatasetVariables
    (Samples.client_answering (Samples.respond 200 (netBody Samples.error_body)))
    "query" Samples.dimensions_query zero_DatasetVariables
  = Return (mkDatasetVariables
              (mkVariables (Some []) zero_Search zero_Search),
            None,
            Some (CloseBody (Samples.respond 200 (netBody Samples.error_body)))).
Proof.
  refine (proj1 (C2_queryUnmarshal_ignores_error decode_DatasetVariables
           (Samples.client_answering
              (Samples.respond 200 (netBody Samples.error_body)))
           "query" Samples.dimensions_query zero_DatasetVariables
           (Samples.respond 200 (netBody Samples.error_body))
           Samples.error_body EmptyString
           (JObj [("error", JStr "dataset not found");
                  ("variables", JObj [("edges", JArr [])])])
           _ _ _ _ _));
    vm_compute; reflexivity.
Defined.

(** C2, as stated, fails: a 200 response whose body carries an [error]
    member makes the call return nil. *)
Lemma C2_counterexample :
  StatusCode Samples.error_response = StatusOK
  ∧ (∃ j, parse (fst (ReadAll (Body' Samples.error_response)))
          = Parsed j EmptyString
          ∧ field "error" j = Some (JStr "dataset not found"))
  ∧ ∃ v lb,
      queryUnmarshal decode_DatasetVariables
        (Samples.client_answering Samples.error_response)
        "query" Samples.dimensions_query zero_DatasetVariables
      = Return (v, None, lb).
Proof.
  split; [reflexivity|]. split.
  - eexists. split; vm_compute; reflexivity.
  - do 2 eexists. vm_compute. reflexivity.
Qed.

(** ** Errors and results *)

Lemma postQuery_error_nil (c : Client) (query : string) (data : QueryData)
    (e : error) :
  snd (fst (postQuery c query data)) = Some e →
  fst (fst (postQuery c query data)) = None.
Proof.
  unfold postQuery. simpl.
  destruct (httpPost c _ _ _) as [res|err]; [|reflexivity].
  destruct (negb _); [reflexivity|discriminate].
Qed.




(** ** The response decoder *)

Section json_induction.
Variable P : json → Prop.
Hypothesis HNull : P JNull.
Hypothesis HBool : ∀ b, P (JBool b).
Hypothesis HNum : ∀ lit, P (JNum lit).
Hypothesis HStr : ∀ s, P (JStr s).
Hypothesis HArr : ∀ items, Forall P items → P (JArr items).
Hypothesis HObj : ∀ ms, Forall (λ kv, P kv.2) ms → P (JObj ms).

Fixpoint json_induction (j : json) : P j :=
  match j with
  | JNull => HNull
  | JBool b => HBool b
  | JNum lit => HNum lit
  | JStr s => HStr s
  | JArr items =>
      HArr items
        ((fix all (l : list json) : Forall P l :=
            match l with
            | [] => List.Forall_nil P
            | x :: r => @List.Forall_cons _ P x r (json_induction x) (all r)
            end) items)
  | JObj ms =>
      HObj ms
        ((fix all (l : list (string * json)) : Forall (λ kv, P kv.2) l :=
            match l with
            | [] => List.Forall_nil _
            | kv :: r =>
                @List.Forall_cons _ (λ kv, P kv.2) kv r
                  (json_induction kv.2) (all r)
            end) ms)
  end.
End json_induction.

Lemma decode_string_accepts (j : json) : accepts fits_string decode_string j.
Proof. intros H cur. destruct j; try discriminate; reflexivity. Qed.

Lemma decode_int_accepts (j : json) : accepts fits_int decode_int j.
Proof.
  intros H cur. destruct j; try discriminate; try reflexivity.
  simpl in *. destruct (parse_int64 lit); [reflexivity|discriminate].
Qed.

Lemma decode_members_accepts {T : Type}
    (step : string → json → T → T * option error)
    (member : string → json → bool) (ms : list (string * json)) :
  Forall (λ kv, member kv.1 kv.2 = true → ∀ c, snd (step kv.1 kv.2 c) = None)
         ms →
  forallb (λ kv, let '(k, v) := kv in member k v) ms = true →
  ∀ cur, snd (decode_members step ms cur) = None.
Proof.
  induction 1 as [|[k v] ms Hkv _ IH]; intros Hfits cur; [reflexivity|].
  simpl in *. apply andb_prop in Hfits as [Hk Hms].
  specialize (Hkv Hk cur). specialize (IH Hms).
  destruct (step k v cur) as [c1 e1]. simpl in Hkv. subst e1.
  specialize (IH c1). destruct (decode_members step ms c1) as [c2 e2].
  simpl in *. exact IH.
Qed.

Lemma decode_items_accepts {T : Type} (zero : T) (fits : json → bool)
    (elem : decoder T) (items : list json) :
  Forall (accepts fits elem) items →
  forallb fits items = true →
  ∀ cur, snd (decode_items zero elem items cur) = None.
Proof.
  induction 1 as [|j items Hj _ IH]; intros Hfits cur; [reflexivity|].
  simpl in *. apply andb_prop in Hfits as [Hk Hms].
  specialize (Hj Hk (hd zero cur)). specialize (IH Hms (tl cur)).
  destruct (elem j (hd zero cur)) as [x e1]. simpl in Hj. subst e1.
  destruct (decode_items zero elem items (tl cur)) as [xs e2].
  simpl in *. exact IH.
Qed.

Lemma decode_slice_accepts {T : Type} (target : string) (zero : T)
    (fits : json → bool) (elem : decoder T) (j : json) :
  match j with JArr items => Forall (accepts fits elem) items | _ => True end →
  match j with
  | JArr items => forallb fits items
  | JNull => true
  | _ => false
  end = true →
  ∀ cur, snd (decode_slice target zero elem j cur) = None.
Proof.
  intros Hall Hfits cur. destruct j; try discriminate; [reflexivity|].
  simpl. pose proof (decode_items_accepts zero fits elem items Hall Hfits
                       (elems cur)) as H.
  destruct (decode_items zero elem items (elems cur)). exact H.
Qed.

Lemma decode_struct_accepts {T : Type}
    (step : string → json → T → T * option error)
    (member : string → json → bool) (target : string) (j : json) :
  (∀ ms, j = JObj ms →
     Forall (λ kv, member kv.1 kv.2 = true →
                   ∀ c, snd (step kv.1 kv.2 c) = None) ms) →
  accepts (fits_struct member)
    (λ j cur, match j with
              | JObj ms => decode_members step ms cur
              | JNull => (cur, None)
              | _ => (cur, mismatch j target)
              end) j.
Proof.
  intros Hms Hfits cur. destruct j; try discriminate; [reflexivity|].
  simpl in *. eapply decode_members_accepts; [apply Hms; reflexivity|].
  exact Hfits.
Qed.

Lemma decode_Variable_accepts (j : json) :
  accepts fits_Variable decode_Variable j.
Proof.
  apply (decode_struct_accepts Variable_step). intros ms _.
  apply Forall_forall. intros [k v] _ Hfit c. simpl in *.
  unfold Variable_step. destruct (is_field "name" k); [|reflexivity].
  pose proof (decode_string_accepts v Hfit (Variable_Name c)) as H.
  destruct (decode_string v (Variable_Name c)). exact H.
Qed.

Lemma snd_let {A B : Type} (p : A * option error) (f : A → B) :
  snd p = None → snd (let '(x, e) := p in (f x, e)) = None.
Proof. destruct p. simpl. intros ->. reflexivity. Qed.

Ltac field_case :=
  apply snd_let;
  first [ apply decode_string_accepts; assumption
        | apply decode_int_accepts; assumption
        | apply decode_Variable_accepts; assumption
        | match goal with
          | H : accepts _ ?d _ |- snd (?d _ _) = None => apply H; assumption
          end
        | eapply decode_slice_accepts; eassumption ].

Ltac field_cases k :=
  repeat (destruct (is_field _ k); [field_case|]); reflexivity.

Lemma gql_accepts (j : json) :
  accepts_all j
  ∧ match j with JArr items => Forall accepts_all items | _ => True end.
Proof.
  induction j as [| | | |items IH|ms IH] using json_induction.
  1-4: (split; [|exact I]; repeat split; intros H cur;
        try discriminate; reflexivity).
  - split.
    + repeat split; intros H' cur; discriminate.
    + eapply Forall_impl; [exact IH|]. intros x [Hx _]. exact Hx.
  - split; [|exact I].
    assert (Forall (λ kv : string * json,
              accepts_all kv.2
              ∧ match kv.2 with
                | JArr items => Forall (accepts fits_Edge decode_Edge) items
                | _ => True
                end
              ∧ match kv.2 with
                | JArr items =>
                    Forall (accepts fits_Variables decode_Variables) items
                | _ => True
                end) ms) as IH'.
    { eapply Forall_impl; [exact IH|]. intros [k v] [Hv Harr]. simpl in *.
      split; [exact Hv|].
      destruct v; try (split; exact I).
      split; (eapply Forall_impl; [exact Harr|]);
        intros x (? & ? & ? & ? & ?); assumption. }
    clear IH.
    repeat split; intros Hfits cur; simpl in Hfits |- *;
      refine (decode_members_accepts _ _ ms _ Hfits cur);
      (eapply Forall_impl; [exact IH'|]); clear;
      intros [k v] [(HN & HC & HV & HS & HE) [HarrE HarrV]]; simpl in *;
      intros Hfit c; field_cases k.
Qed.

Lemma decode_Variables_accepts (j : json) :
  accepts fits_Variables decode_Variables j.
Proof. apply (gql_accepts j). Qed.

Lemma decode_RuleBase_accepts (j : json) :
  accepts fits_RuleBase decode_RuleBase j.
Proof.
  apply (decode_struct_accepts _ _ "gql.RuleBase"). intros ms _.
  apply Forall_forall. intros [k v] _ Hfit c. simpl in *.
  pose proof (decode_Variables_accepts v) as HV.
  field_cases k.
Qed.

Lemma decode_DatasetRuleBase_accepts (j : json) :
  accepts fits_DatasetRuleBase decode_DatasetRuleBase j.
Proof.
  apply (decode_struct_accepts _ _ "gql.DatasetRuleBase"). intros ms _.
  apply Forall_forall. intros [k v] _ Hfit c. simpl in *.
  pose proof (decode_RuleBase_accepts v) as HR.
  field_cases k.
Qed.

Lemma decode_DatasetVariables_accepts (j : json) :
  accepts fits_DatasetVariables decode_DatasetVariables j.
Proof.
  apply (decode_struct_accepts _ _ "gql.DatasetVariables"). intros ms _.
  apply Forall_forall. intros [k v] _ Hfit c. simpl in *.
  pose proof (decode_Variables_accepts v) as HV.
  field_cases k.
Qed.

(** *** Fields the response does not mention *)

Lemma decode_members_inv {T : Type} (P : T → Prop)
    (step : string → json → T → T * option error)
    (ms : list (string * json)) (cur : T) :
  P cur →
  (∀ k v c, (k, v) ∈ ms → P c → P (fst (step k v c))) →
  P (fst (decode_members step ms cur)).
Proof.
  revert cur. induction ms as [|[k v] ms IH]; intros cur Hcur Hstep;
    [exact Hcur|].
  simpl. pose proof (Hstep k v cur (list_elem_of_here _ _) Hcur) as H1.
  destruct (step k v cur) as [c1 e1]. simpl in H1.
  assert (P (fst (decode_members step ms c1))) as H2.
  { apply IH; [exact H1|]. intros k' v' c' Hin. apply Hstep.
    apply list_elem_of_further. exact Hin. }
  destruct (decode_members step ms c1). exact H2.
Qed.

Ltac untouched Hmiss :=
  intros k v c Hin Hc;
  repeat match goal with
         | |- context [if is_field ?n k then _ else _] =>
             destruct (is_field n k) eqn:?
         end;
  first [ exact Hc
        | rewrite (Hmiss k v Hin) by assumption; simpl;
          first [exact Hc | reflexivity]
        | first [ destruct (decode_string v _)
                | destruct (decode_int v _)
                | destruct (decode_Variable v _)
                | destruct (decode_slice _ _ _ v _)
                | destruct (decode_Node v _)
                | destruct (decode_Categories v _)
                | destruct (decode_Variables v _)
                | destruct (decode_Search v _) ];
          simpl; exact Hc ].

Lemma decode_Node_missing (ms : list (string * json)) :
  Node_zero_where_missing ms (fst (decode_Node (JObj ms) zero_Node)).
Proof.
  repeat split; intros Hmiss; simpl.
  - apply (decode_members_inv (λ c, Node_Name c = EmptyString));
      [reflexivity|untouched Hmiss].
  - apply (decode_members_inv (λ c, Node_Code c = EmptyString));
      [reflexivity|untouched Hmiss].
  - apply (decode_members_inv (λ c, Node_Label c = EmptyString));
      [reflexivity|untouched Hmiss].
  - apply (decode_members_inv (λ c, Node_Categories c = zero_Categories));
      [reflexivity|untouched Hmiss].
  - apply (decode_members_inv (λ c, Node_MapFrom c = None));
      [reflexivity|untouched Hmiss].
  - apply (decode_members_inv (λ c, Node_FilterOnly c = EmptyString));
      [reflexivity|untouched Hmiss].
  - apply (decode_members_inv (λ c, Node_Variable c = zero_Variable));
      [reflexivity|untouched Hmiss].
Qed.

Lemma decode_Categories_missing (ms : list (string * json)) :
  Categories_zero_where_missing ms
    (fst (decode_Categories (JObj ms) zero_Categories)).
Proof.
  repeat split; intros Hmiss; simpl.
  - apply (decode_members_inv (λ c, Categories_TotalCount c = 0%Z));
      [reflexivity|untouched Hmiss].
  - apply (decode_members_inv (λ c, Categories_Edges c = None));
      [reflexivity|untouched Hmiss].
Qed.

Lemma decode_Variables_missing (ms : list (string * json)) :
  Variables_zero_where_missing ms
    (fst (decode_Variables (JObj ms) zero_Variables)).
Proof.
  repeat split; intros Hmiss; simpl.
  - apply (decode_members_inv (λ c, Variables_Edges c = None));
      [reflexivity|untouched Hmiss].
  - apply (decode_members_inv (λ c, Variables_Search c = zero_Search));
      [reflexivity|untouched Hmiss].
  - apply (decode_members_inv
             (λ c, Variables_CategorySearch c = zero_Search));
      [reflexivity|untouched Hmiss].
Qed.

Example decode_dimensions :
  Unmarshal decode_DatasetVariables Samples.dimensions_body
    zero_DatasetVariables
  = (mkDatasetVariables
       (mkVariables
          (Some [mkEdge (mkNode "city" EmptyString "City" (mkCategories 3 None)
                           (Some []) EmptyString zero_Variable)])
          zero_Search zero_Search),
     None).
Proof. vm_compute. reflexivity. Qed.

(** The responses of the catalog are JSON, fit both roots of the shapes
    and decode into either without an error. *)
Example catalog_responses_decode :
  forallb
    (λ b, match parse b with
          | Parsed j _ =>
              fits_DatasetVariables j && fits_DatasetRuleBase j
              && bool_decide
                   (snd (Unmarshal decode_DatasetVariables b
                           zero_DatasetVariables) = None
                    ∧ snd (Unmarshal decode_DatasetRuleBase b
                             zero_DatasetRuleBase) = None)
          | _ => false
          end)
    Samples.catalog_responses
  = true.
Proof. vm_compute. reflexivity. Qed.

(** A value of another kind under a known key is a type error. *)
Example decode_wrong_kind :
  snd (Unmarshal decode_DatasetVariables
         (Samples.json_text "{'variables':{'edges':[{'node':{'name':5}}]}}")
         zero_DatasetVariables)
  = Some (ErrUnmarshalType "number" "string").
Proof. vm_compute. reflexivity. Qed.



(** ** The fan-out of GetDatasetLandingPage *)

Section FanOut.

Import zebedee.

Variable url_Parse : string → string + error.
Variable c : zebedee.Client.
Variable ctx : zebedee.Context.
Variable token : string.

Local Abbreviation resolve := (zebedee.resolve url_Parse c ctx token).
Local Abbreviation step := (zebedee.step url_Parse c ctx token).
Local Abbreviation Inv := (Inv url_Parse c ctx token).

Lemma slot_write (h : list (list Related)) (a i a' i' : nat) (t : string) :
  slot (write a i t h) a' i'
  = if decide (a = a' ∧ i = i') then setTitle t <$> slot h a i
    else slot h a' i'.
Proof.
  unfold slot, write. destruct (decide (a = a')) as [<-|Ha].
  - rewrite list_lookup_alter_eq. destruct (h !! a) as [l|]; simpl.
    + destruct (decide (i = i')) as [<-|Hi].
      * rewrite decide_True; [|split; reflexivity]. apply list_lookup_alter_eq.
      * rewrite decide_False; [|intros [_ ?]; contradiction].
        apply list_lookup_alter_ne. exact Hi.
    + destruct (decide _); reflexivity.
  - rewrite decide_False; [|intros [? _]; contradiction].
    rewrite list_lookup_alter_ne; [reflexivity|exact Ha].
Qed.

Lemma lengths_write (h : list (list Related)) (a i : nat) (t : string) :
  map List.length (write a i t h) = map List.length h.
Proof.
  unfold write. revert a. induction h as [|l h IH]; intros [|a]; simpl;
    try reflexivity.
  - rewrite length_alter. reflexivity.
  - f_equal. apply IH.
Qed.

Lemma sum_list_with_app' {A : Type} (f : A → nat) (l1 l2 : list A) :
  sum_list_with f (app l1 l2) = sum_list_with f l1 + sum_list_with f l2.
Proof. induction l1 as [|x l1 IH]; simpl; [reflexivity|]. rewrite IH. lia. Qed.

Lemma all_tasks_slot (arrays : list (list Related)) (a i : nat) (e : Related) :
  mkTask a i e ∈ all_tasks arrays ↔ slot arrays a i = Some e.
Proof.
  unfold all_tasks, slot. rewrite list_elem_of_join. split.
  - intros (l & Hin & Hl).
    apply elem_of_lookup_imap in Hl as (a' & arr & -> & Harr).
    apply elem_of_lookup_imap in Hin as (i' & e' & [= -> -> ->] & He).
    rewrite Harr. simpl. exact He.
  - intros H. destruct (arrays !! a) as [arr|] eqn:Harr; [|discriminate].
    simpl in H. exists (tasks_of a arr). split.
    + apply (elem_of_lookup_imap_2 (λ i e, mkTask a i e)). exact H.
    + apply (elem_of_lookup_imap_2 tasks_of). exact Harr.
Qed.

Lemma all_tasks_valid (arrays : list (list Related)) (t : task) :
  t ∈ all_tasks arrays →
  slot arrays (task_element t) (task_i t) = Some (task_e t).
Proof. destruct t as [a i e]. apply all_tasks_slot. Qed.


Lemma Inv_init (arrays : list (list Related)) : Inv arrays (init arrays).
Proof.
  split; simpl; try reflexivity; try lia; try discriminate.
  - intros [|]; discriminate.
  - intros a i e0 H. left. exact H.
  - intros t. apply all_tasks_valid.
  - intros t ph H. apply elem_of_nil in H. contradiction.
  - intros t pt H. apply elem_of_nil in H. contradiction.
  - intros t ph H. apply elem_of_nil in H. contradiction.
  - intros a i e0 H. left. apply all_tasks_slot. exact H.
Qed.

Lemma resolve_setTitle (e : Related) :
  setTitle
    (PageTitle_Title (fst (GetPageTitle url_Parse c ctx token (URI e))))
    (resolve e)
  = resolve e.
Proof. reflexivity. Qed.

(** A goroutine that writes its title leaves its slot resolved and the
    other slots as they were. *)
Lemma write_resolved (arrays h : list (list Related)) (t : task)
    (a i : nat) (e0 : Related) :
  (∀ a i e0, slot arrays a i = Some e0 →
     slot h a i = Some e0 ∨ slot h a i = Some (resolve e0)) →
  slot arrays (task_element t) (task_i t) = Some (task_e t) →
  slot arrays a i = Some e0 →
  slot (write (task_element t) (task_i t)
          (PageTitle_Title
             (fst (GetPageTitle url_Parse c ctx token (URI (task_e t))))) h)
       a i
  = if decide (task_element t = a ∧ task_i t = i)
    then Some (resolve e0) else slot h a i.
Proof.
  intros Hshape Ht He0. rewrite slot_write.
  destruct (decide _) as [[<- <-]|]; [|reflexivity].
  rewrite Ht in He0. injection He0 as <-.
  destruct (Hshape _ _ _ Ht) as [-> | ->]; reflexivity.
Qed.

Lemma in_flight_mid (p1 p2 : list (task * phase)) (x : task * phase) :
  sum_list_with holds_place (app p1 (x :: p2))
  = sum_list_with holds_place p1 + holds_place x
    + sum_list_with holds_place p2.
Proof. rewrite sum_list_with_app'. simpl. lia. Qed.

Lemma length_mid {A : Type} (p1 p2 : list A) (x : A) :
  List.length (app p1 (x :: p2)) = S (List.length p1 + List.length p2).
Proof. rewrite length_app. simpl. lia. Qed.

Lemma elem_of_mid {A : Type} (p1 p2 : list A) (x y : A) :
  y ∈ app p1 (x :: p2) ↔ y = x ∨ y ∈ app p1 p2.
Proof. rewrite !elem_of_app, elem_of_cons. tauto. Qed.

Ltac mid := rewrite ?elem_of_mid in *.

Lemma Inv_step (arrays : list (list Related)) (s s' : state) :
  Inv arrays s → step s s' → Inv arrays s'.
Proof.
  intros [Hsem Hwg Hcap Hhead Htail Hjoin Hlen Hshape Htodo Hprocs Hfetched
            Hwrote Hcover] Hstep.
  unfold in_flight in *.
  inversion Hstep; subst; simpl in *.
  - (* sem <- 1 *)
    split; simpl; unfold in_flight; simpl; try assumption; try lia;
      try discriminate.
    intros [|]; discriminate.
  - (* wg.Add(1) *)
    split; simpl; unfold in_flight; simpl; try assumption; try lia;
      try discriminate.
    intros [|]; discriminate.
  - (* go *)
    split; simpl; unfold in_flight; simpl; try assumption;
      try discriminate.
    + rewrite sum_list_with_app'. simpl. lia.
    + rewrite length_app. simpl. lia.
    + intros [|]; discriminate.
    + intros t' Hin. apply Htodo. apply elem_of_cons. right. exact Hin.
    + intros t' ph Hin. apply elem_of_app in Hin as [Hin|Hin].
      * eapply Hprocs. exact Hin.
      * apply list_elem_of_singleton in Hin. injection Hin as -> ->.
        apply Htodo. apply elem_of_cons. left. reflexivity.
    + intros t' pt Hin. apply elem_of_app in Hin as [Hin|Hin].
      * apply Hfetched. exact Hin.
      * apply list_elem_of_singleton in Hin. discriminate.
    + intros t' ph Hin Hw. apply elem_of_app in Hin as [Hin|Hin].
      * eapply Hwrote; eassumption.
      * apply list_elem_of_singleton in Hin. injection Hin as -> ->.
        destruct Hw; discriminate.
    + intros a i e0 He0.
      destruct (Hcover a i e0 He0) as [Hin|[[ph Hin]|Hdone]].
      * apply elem_of_cons in Hin as [<-|Hin].
        -- right. left. exists Fetching. apply elem_of_app. right.
           apply list_elem_of_singleton. reflexivity.
        -- left. exact Hin.
      * right. left. exists ph. apply elem_of_app. left. exact Hin.
      * right. right. exact Hdone.
  - (* leaving the loops *)
    split; simpl; unfold in_flight; simpl; try assumption; try lia;
      try discriminate; try reflexivity.
  - (* wg.Wait returns *)
    split; simpl; unfold in_flight; simpl; try assumption; try lia;
      try discriminate.
    + intros _. apply Htail. left. reflexivity.
    + intros _. destruct ps; [reflexivity|simpl in Hwg; lia].
  - (* GetPageTitle returns *)
    rewrite in_flight_mid, length_mid in *.
    split; simpl; unfold in_flight; simpl;
      rewrite ?in_flight_mid, ?length_mid; simpl in *;
      try assumption; try lia.
    + intros Hm. specialize (Hjoin Hm). destruct p1; discriminate.
    + intros t' ph Hin. mid. destruct Hin as [[= -> ->]|Hin].
      * apply (Hprocs t Fetching). mid. left. reflexivity.
      * apply (Hprocs t' ph). mid. right. exact Hin.
    + intros t' pt Hin. mid. destruct Hin as [[= -> ->]|Hin].
      * reflexivity.
      * apply Hfetched. mid. right. exact Hin.
    + intros t' ph Hin Hw. mid. destruct Hin as [[= -> ->]|Hin].
      * destruct Hw; discriminate.
      * apply (Hwrote t' ph); [|exact Hw]. mid. right. exact Hin.
    + intros a i e0 He0.
      destruct (Hcover a i e0 He0) as [Hin|[[ph Hin]|Hdone]].
      * left. exact Hin.
      * right. left. mid. destruct Hin as [[= <- ->]|Hin].
        -- eexists. mid. left. reflexivity.
        -- exists ph. mid. right. exact Hin.
      * right. right. exact Hdone.
  - (* element[i].Title = t.Title *)
    rewrite in_flight_mid, length_mid in *.
    assert (slot arrays (task_element t) (task_i t) = Some (task_e t)) as Ht.
    { apply (Hprocs t (Fetched pt)). mid. left. reflexivity. }
    assert (pt = fst (GetPageTitle url_Parse c ctx token (URI (task_e t))))
      as ->.
    { apply Hfetched. mid. left. reflexivity. }
    split; simpl; unfold in_flight; simpl;
      rewrite ?in_flight_mid, ?length_mid; simpl in *;
      try assumption; try lia.
    + intros Hm. specialize (Hjoin Hm). destruct p1; discriminate.
    + rewrite lengths_write. exact Hlen.
    + intros a i e0 He0.
      rewrite (write_resolved arrays h t a i e0 Hshape Ht He0).
      destruct (decide _); [right; reflexivity|]. apply Hshape. exact He0.
    + intros t' ph Hin. mid. destruct Hin as [[= -> ->]|Hin].
      * exact Ht.
      * apply (Hprocs t' ph). mid. right. exact Hin.
    + intros t' pt Hin. mid. destruct Hin as [[=]|Hin].
      apply Hfetched. mid. right. exact Hin.
    + intros t' ph Hin Hw.
      assert (slot arrays (task_element t') (task_i t') = Some (task_e t'))
        as Ht'.
      { mid. destruct Hin as [[= -> ->]|Hin]; [exact Ht|].
        apply (Hprocs t' ph). mid. right. exact Hin. }
      rewrite (write_resolved arrays h t _ _ _ Hshape Ht Ht').
      destruct (decide _) as [|Hne]; [reflexivity|].
      mid. destruct Hin as [[= -> ->]|Hin].
      * exfalso. apply Hne. split; reflexivity.
      * apply (Hwrote t' ph); [|exact Hw]. mid. right. exact Hin.
    + intros a i e0 He0.
      rewrite (write_resolved arrays h t a i e0 Hshape Ht He0).
      destruct (decide _); [right; right; reflexivity|].
      destruct (Hcover a i e0 He0) as [Hin|[[ph Hin]|Hdone]].
      * left. exact Hin.
      * right. left. mid. destruct Hin as [[= <- ->]|Hin].
        -- eexists. mid. left. reflexivity.
        -- exists ph. mid. right. exact Hin.
      * right. right. exact Hdone.
  - (* <-sem *)
    rewrite in_flight_mid, length_mid in *.
    split; simpl; unfold in_flight; simpl;
      rewrite ?in_flight_mid, ?length_mid; simpl in *;
      try assumption; try lia.
    + unfold holds_place in *. simpl in *. lia.
    + intros Hm. specialize (Hjoin Hm). destruct p1; discriminate.
    + intros t' ph Hin. mid. destruct Hin as [[= -> ->]|Hin].
      * apply (Hprocs t Written). mid. left. reflexivity.
      * apply (Hprocs t' ph). mid. right. exact Hin.
    + intros t' pt Hin. mid. destruct Hin as [[=]|Hin].
      apply Hfetched. mid. right. exact Hin.
    + intros t' ph Hin Hw. mid. destruct Hin as [[= -> ->]|Hin].
      * apply (Hwrote t Written); [|left; reflexivity].
        mid. left. reflexivity.
      * apply (Hwrote t' ph); [|exact Hw]. mid. right. exact Hin.
    + intros a i e0 He0.
      destruct (Hcover a i e0 He0) as [Hin|[[ph Hin]|Hdone]].
      * left. exact Hin.
      * right. left. mid. destruct Hin as [[= <- ->]|Hin].
        -- eexists. mid. left. reflexivity.
        -- exists ph. mid. right. exact Hin.
      * right. right. exact Hdone.
  - (* wg.Done *)
    rewrite in_flight_mid, length_mid in *.
    unfold holds_place at 2 in Hsem. simpl in Hsem.
    split; simpl; unfold in_flight; simpl;
      rewrite ?sum_list_with_app', ?length_app; simpl in *;
      try assumption; try lia.
    + intros Hm. specialize (Hjoin Hm). destruct p1; discriminate.
    + intros t' ph Hin. apply (Hprocs t' ph). mid. right. exact Hin.
    + intros t' pt Hin. apply Hfetched. mid. right. exact Hin.
    + intros t' ph Hin Hw. apply (Hwrote t' ph); [|exact Hw].
      mid. right. exact Hin.
    + intros a i e0 He0.
      destruct (Hcover a i e0 He0) as [Hin|[[ph Hin]|Hdone]].
      * left. exact Hin.
      * mid. destruct Hin as [[= <- ->]|Hin].
        -- right. right.
           apply (Hwrote (mkTask a i e0) Released); [|right; reflexivity].
           mid. left. reflexivity.
        -- right. left. exists ph. exact Hin.
      * right. right. exact Hdone.
Qed.

Lemma Inv_reachable (arrays : list (list Related)) (s : state) :
  rtc step (init arrays) s → Inv arrays s.
Proof.
  intros H. revert s H. apply (rtc_ind_r (R := step) (Inv arrays)).
  - apply Inv_init.
  - intros s1 s2 _ H12 IH. eapply Inv_step; eassumption.
Qed.

Lemma resolved_list (l l0 : list Related) :
  List.length l = List.length l0 →
  (∀ i e0, l0 !! i = Some e0 → l !! i = Some (resolve e0)) →
  l = map resolve l0.
Proof.
  revert l0. induction l as [|x l IH]; intros [|x0 l0] Hlen Hs;
    try discriminate; [reflexivity|].
  simpl. f_equal.
  - specialize (Hs 0%nat x0 eq_refl). simpl in Hs. congruence.
  - apply IH; [simpl in Hlen; lia|].
    intros i e0 H. apply (Hs (S i)). exact H.
Qed.

Lemma resolved_heap (h arrays : list (list Related)) :
  map List.length h = map List.length arrays →
  (∀ a i e0, slot arrays a i = Some e0 → slot h a i = Some (resolve e0)) →
  h = map (map resolve) arrays.
Proof.
  revert arrays. induction h as [|l h IH]; intros [|l0 arrays] Hlen Hs;
    try discriminate; [reflexivity|].
  simpl in *. injection Hlen as Hl Hlen. f_equal.
  - apply resolved_list; [exact Hl|]. intros i e0 H. apply (Hs 0%nat). exact H.
  - apply IH; [exact Hlen|]. intros a i e0 H. apply (Hs (S a)). exact H.
Qed.

Lemma page_of_resolved (dlp : DatasetLandingPage) :
  page_of dlp (map (map resolve) (related dlp))
  = zebedee.resolved url_Parse c ctx token dlp.
Proof.
  destruct dlp as [[?|] [?|] [?|] [?|]]; reflexivity.
Qed.

Lemma joined (arrays : list (list Related)) (s : state) :
  Inv arrays s → main s = Returned →
  todo s = [] ∧ procs s = [] ∧ heap s = map (map resolve) arrays.
Proof.
  intros HI Hm.
  assert (todo s = []) as Htd by (apply (inv_tail _ _ _ _ _ _ HI); right; exact Hm).
  assert (procs s = []) as Hps by (apply (inv_join _ _ _ _ _ _ HI); exact Hm).
  repeat split; try assumption.
  apply resolved_heap; [apply (inv_lengths _ _ _ _ _ _ HI)|].
  intros a i e0 He0.
  destruct (inv_cover _ _ _ _ _ _ HI a i e0 He0) as [Hin|[[ph Hin]|Hdone]].
  - rewrite Htd in Hin. apply elem_of_nil in Hin. contradiction.
  - rewrite Hps in Hin. apply elem_of_nil in Hin. contradiction.
  - exact Hdone.
Qed.

(** A goroutine that is still there can move, whatever the others do. *)
Lemma proc_moves (m : pc) (td : list task) (n w : nat)
    (p1 p2 : list (task * phase)) (t : task) (ph : phase)
    (h : list (list Related)) :
  (holds_place (t, ph) ≤ n)%nat → (1 ≤ w)%nat →
  ∃ s', step (mkState m td n w (app p1 ((t, ph) :: p2)) h) s'.
Proof.
  intros Hn Hw. destruct ph.
  - eexists. apply step_fetch.
  - eexists. apply step_write.
  - destruct n as [|n]; [unfold holds_place in Hn; simpl in Hn; lia|].
    eexists. apply step_release.
  - destruct w as [|w]; [lia|]. eexists. apply step_done.
Qed.

Lemma holder (ps : list (task * phase)) :
  (0 < sum_list_with holds_place ps)%nat →
  ∃ p1 t ph p2, ps = app p1 ((t, ph) :: p2) ∧ holds_place (t, ph) = 1%nat.
Proof.
  induction ps as [|[t ph] ps IH]; simpl; [lia|]. intros H.
  destruct (holds_place (t, ph)) as [|[|k]] eqn:E.
  - destruct (IH ltac:(lia)) as (p1 & t' & ph' & p2 & -> & H').
    exists ((t, ph) :: p1), t', ph', p2. split; [reflexivity|exact H'].
  - exists [], t, ph, ps. split; [reflexivity|exact E].
  - destruct ph; discriminate.
Qed.

Lemma progress (arrays : list (list Related)) (s : state) :
  Inv arrays s → main s ≠ Returned → ∃ s', step s s'.
Proof.
  intros HI Hm. destruct s as [m td n w ps h].
  pose proof (inv_sem _ _ _ _ _ _ HI) as Hsem. pose proof (inv_wg _ _ _ _ _ _ HI) as Hwg.
  pose proof (inv_cap _ _ _ _ _ _ HI) as Hcap. pose proof (inv_head _ _ _ _ _ _ HI) as Hhead.
  unfold in_flight in *. simpl in *.
  destruct m; [| | | |contradiction].
  - destruct td as [|t r]; [eexists; apply step_leave|].
    destruct (decide (n < workers)%nat) as [Hlt|Hge].
    + eexists. apply step_send. exact Hlt.
    + simpl in Hsem. unfold workers in *.
      destruct (holder ps ltac:(lia)) as (p1 & t' & ph & p2 & -> & Hh).
      apply proc_moves; [lia|].
      rewrite length_mid in Hwg. lia.
  - eexists. apply step_add.
  - destruct td as [|t r]; [exfalso; apply Hhead; reflexivity|].
    eexists. apply step_go.
  - destruct ps as [|[t ph] ps].
    + simpl in Hwg. subst w. eexists. apply step_wait.
    + apply (proc_moves _ _ _ _ []); simpl in *; lia.
Qed.

Lemma step_decreases (s s' : state) :
  step s s' → (steps_left s' < steps_left s)%nat.
Proof.
  intros H. inversion H; subst; unfold steps_left; simpl;
    rewrite ?sum_list_with_app'; simpl; unfold phase_left; simpl; lia.
Qed.

(** From wherever the fan-out has got to, it can be run to its end. *)
Lemma returns (arrays : list (list Related)) (s : state) :
  Inv arrays s → ∃ s', rtc step s s' ∧ main s' = Returned.
Proof.
  remember (steps_left s) as k eqn:Hk. revert s Hk.
  induction k as [k IH] using lt_wf_ind. intros s -> HI.
  assert (main s = Returned ∨ main s ≠ Returned) as [Hm|Hm].
  { destruct (main s); [right; discriminate..|left; reflexivity]. }
  - exists s. split; [apply rtc_refl|exact Hm].
  - destruct (progress arrays s HI Hm) as [s1 H1].
    destruct (IH _ (step_decreases _ _ H1) s1 eq_refl
                (Inv_step _ _ _ HI H1)) as (s' & Hrun & Hret).
    exists s'. split; [|exact Hret]. eapply rtc_l; eassumption.
Qed.

End FanOut.


Ltac fan_out_step :=
  eapply rtc_l;
  [ first [ apply (zebedee.step_done _ _ _ _ _ _ _ _ [])
          | apply (zebedee.step_release _ _ _ _ _ _ _ _ [])
          | apply (zebedee.step_write _ _ _ _ _ _ _ _ [])
          | apply (zebedee.step_fetch _ _ _ _ _ _ _ _ [])
          | apply zebedee.step_go
          | apply zebedee.step_add
          | apply zebedee.step_send; unfold zebedee.workers; lia
          | apply zebedee.step_leave
          | apply zebedee.step_wait ]
  | simpl ].


(** The entry whose page could not be fetched ends with an empty title;
    the other one has its title all the same. *)
Example fan_out_two_entries :
  zebedee.resolved inl Samples.flaky Samples.no_context "token"
    Samples.two_entries
  = zebedee.mkDatasetLandingPage
      (Some [zebedee.mkRelated EmptyString "/bad"])
      None
      (Some [zebedee.mkRelated "Good page" "/good"])
      None.
Proof. vm_compute. reflexivity. Qed.

(* ===================================================================== *)
(** * More properties of the code *)
(* ===================================================================== *)

(** ** cantabular: postQuery and queryUnmarshal *)

Lemma postQuery_cases (c : Client) (query : string) (data : QueryData) :
  (∃ err, httpPost c (graphql_url c) "application/json"
            (fst (Encode data query)) = inr err
          ∧ postQuery c query data
            = ((None,
                Some (ErrCoded
                        (ErrWrap "failed to make GraphQL query: %w" err)
                        StatusInternalServerError
                        (<["query_data" := marshal_QueryData data]>
                           (<["url" := JStr (graphql_url c)]> ∅)))),
               None))
  ∨ (∃ res, httpPost c (graphql_url c) "application/json"
              (fst (Encode data query)) = inl res
            ∧ StatusCode res ≠ StatusOK
            ∧ postQuery c query data
              = ((None, Some (errorResponse (graphql_url c) (CloseBody res))),
                 Some (CloseBody res)))
  ∨ (∃ res, httpPost c (graphql_url c) "application/json"
              (fst (Encode data query)) = inl res
            ∧ StatusCode res = StatusOK
            ∧ postQuery c query data = ((Some res, None), Some res)).
Proof.
  unfold postQuery. simpl.
  destruct (httpPost c _ _ _) as [res|err] eqn:E.
  - destruct (StatusCode res =? StatusOK)%Z eqn:Es.
    + right. right. exists res. apply Z.eqb_eq in Es. auto.
    + right. left. exists res. apply Z.eqb_neq in Es. auto.
  - left. exists err. auto.
Qed.

(** X1. postQuery hands a response to its caller exactly when the
    transport answered with status 200, and then it is the response of
    the transport as the transport gave it: postQuery has not closed its
    body. *)
Theorem X1_postQuery_response_iff_200
    (c : Client) (query : string) (data : QueryData) (r : Response) :
  fst (fst (postQuery c query data)) = Some r
  ↔ httpPost c (graphql_url c) "application/json" (fst (Encode data query))
    = inl r
    ∧ StatusCode r = StatusOK.
Proof.
  destruct (postQuery_cases c query data)
    as [(err & Hp & ->)|[(res & Hp & Hs & ->)|(res & Hp & Hs & ->)]];
    rewrite Hp; simpl; split.
  - discriminate.
  - intros [[=] _].
  - discriminate.
  - intros [[= ->] ?]. contradiction.
  - intros [= ->]. auto.
  - intros [[= ->] _]. reflexivity.
Qed.

(** X2. When the transport fails, postQuery returns no response and an
    error with status 500 that wraps the error of the transport: unwrapping
    it twice gives that error back. *)
Theorem X2_postQuery_transport_error
    (c : Client) (query : string) (data : QueryData) (err : error) :
  httpPost c (graphql_url c) "application/json" (fst (Encode data query))
  = inr err →
  ∃ e, postQuery c query data = ((None, Some e), None)
       ∧ Code e = Some StatusInternalServerError
       ∧ (Unwrap e ≫= Unwrap) = Some err.
Proof.
  intros H.
  destruct (postQuery_cases c query data)
    as [(err' & Hp & ->)|[(res & Hp & _)|(res & Hp & _)]];
    rewrite H in Hp; try discriminate.
  injection Hp as <-. eexists. repeat split.
Qed.

Lemma X2_witness :
  ∃ e, postQuery
         (mkClient "h" "ext" (λ _, inr (ErrNew "no route"))
            (λ _ _ _, inr (ErrNew "no route")))
         "query" Samples.dimensions_query
       = ((None, Some e), None)
       ∧ Code e = Some StatusInternalServerError
       ∧ (Unwrap e ≫= Unwrap) = Some (ErrNew "no route").
Proof.
  apply (X2_postQuery_transport_error
           (mkClient "h" "ext" (λ _, inr (ErrNew "no route"))
              (λ _ _ _, inr (ErrNew "no route")))
           "query" Samples.dimensions_query (ErrNew "no route")).
  reflexivity.
Defined.

(** X3. postQuery returns a response or an error, never both and never
    neither; so queryUnmarshal, which reads the body of the response
    whenever the error is nil, never reads through a nil response:
    whatever the transport does, it returns. *)
Theorem X3_queryUnmarshal_returns
    {V : Type} (dec : decoder V) (c : Client) (query : string)
    (data : QueryData) (v : V) :
  ((∃ r, fst (postQuery c query data) = (Some r, None))
   ∨ (∃ e, fst (postQuery c query data) = (None, Some e)))
  ∧ ∃ v' e lb, queryUnmarshal dec c query data v = Return (v', e, lb).
Proof.
  unfold queryUnmarshal.
  destruct (postQuery_cases c query data)
    as [(err & _ & ->)|[(res & _ & _ & ->)|(res & _ & _ & ->)]].
  - split; [right; eexists; reflexivity|]. do 3 eexists. reflexivity.
  - split; [right; eexists; reflexivity|]. do 3 eexists. reflexivity.
  - split; [left; eexists; reflexivity|].
    destruct (ReadAll (Body' res)) as [b [err|]].
    + do 3 eexists. reflexivity.
    + destruct (Unmarshal dec b v) as [v' [err|]]; do 3 eexists; reflexivity.
Qed.

(** X4. Whenever the transport handed over a response, queryUnmarshal
    leaves its body closed, on every way out: a status other than 200, a
    failed read, a failed decoding, or success. *)
Theorem X4_queryUnmarshal_closes_body
    {V : Type} (dec : decoder V) (c : Client) (query : string)
    (data : QueryData) (v : V) (res : Response) :
  httpPost c (graphql_url c) "application/json" (fst (Encode data query))
  = inl res →
  ∃ v' e, queryUnmarshal dec c query data v
          = Return (v', e, Some (CloseBody res))
          ∧ Body_closed (Body' (CloseBody res)) = true.
Proof.
  intros H. unfold queryUnmarshal.
  destruct (postQuery_cases c query data)
    as [(err & Hp & ->)|[(r & Hp & _ & ->)|(r & Hp & _ & ->)]];
    rewrite H in Hp; try discriminate; injection Hp as <-.
  - do 2 eexists. split; reflexivity.
  - destruct (ReadAll (Body' res)) as [b [err|]].
    + do 2 eexists. split; reflexivity.
    + destruct (Unmarshal dec b v) as [v' [err|]];
        do 2 eexists; split; reflexivity.
Qed.

Lemma X4_witness :
  ∃ v' e,
    queryUnmarshal decode_DatasetVariables
      (Samples.client_answering (Samples.respond 200 (netBody "not json")))
      "query" Samples.dimensions_query zero_DatasetVariables
    = Return (v', e, Some (CloseBody (Samples.respond 200 (netBody "not json"))))
    ∧ Body_closed
        (Body' (CloseBody (Samples.respond 200 (netBody "not json")))) = true.
Proof.
  apply (X4_queryUnmarshal_closes_body decode_DatasetVariables
           (Samples.client_answering
              (Samples.respond 200 (netBody "not json")))
           "query" Samples.dimensions_query zero_DatasetVariables
           (Samples.respond 200 (netBody "not json"))).
  reflexivity.
Defined.

(** X5. A 200 response whose body is not JSON leaves [v] as it was and
    gives an error with status 500 whose log data hold the body as
    received. *)
Theorem X5_queryUnmarshal_malformed_body
    {V : Type} (dec : decoder V) (c : Client) (query : string)
    (data : QueryData) (v : V) (res : Response) (b : string) :
  httpPost c (graphql_url c) "application/json" (fst (Encode data query))
  = inl res →
  StatusCode res = StatusOK →
  ReadAll (Body' res) = (b, None) →
  parse b = SyntaxError →
  ∃ e d, queryUnmarshal dec c query data v
         = Return (v, Some (ErrCoded e StatusInternalServerError d),
                   Some (CloseBody res))
         ∧ d !! "response_body" = Some (JStr b)
         ∧ d !! "url" = Some (JStr (graphql_url c)).
Proof.
  intros H Hs Hr Hp. unfold queryUnmarshal.
  destruct (postQuery_cases c query data)
    as [(err & Hq & _)|[(r & Hq & Hne & _)|(r & Hq & _ & ->)]];
    rewrite H in Hq; try discriminate; injection Hq as <-;
    [contradiction|].
  rewrite Hr. unfold Unmarshal. rewrite Hp.
  do 2 eexists. split; [reflexivity|]. split.
  - apply lookup_insert_eq.
  - rewrite lookup_insert_ne by discriminate. apply lookup_insert_eq.
Qed.

Lemma X5_witness :
  ∃ e d,
    queryUnmarshal decode_DatasetVariables
      (Samples.client_answering (Samples.respond 200 (netBody "<html>")))
      "query" Samples.dimensions_query zero_DatasetVariables
    = Return (zero_DatasetVariables,
              Some (ErrCoded e StatusInternalServerError d),
              Some (CloseBody (Samples.respond 200 (netBody "<html>"))))
    ∧ d !! "response_body" = Some (JStr "<html>")
    ∧ d !! "url"
      = Some (JStr (graphql_url
                      (Samples.client_answering
                         (Samples.respond 200 (netBody "<html>"))))).
Proof.
  apply (X5_queryUnmarshal_malformed_body decode_DatasetVariables
           (Samples.client_answering (Samples.respond 200 (netBody "<html>")))
           "query" Samples.dimensions_query zero_DatasetVariables
           (Samples.respond 200 (netBody "<html>")) "<html>");
    vm_compute; reflexivity.
Defined.

(** X6. When reading the body of a 200 response fails, the error that
    queryUnmarshal returns carries the status of the response, that is
    200, and [v] is as it was. *)
Theorem X6_queryUnmarshal_read_error
    {V : Type} (dec : decoder V) (c : Client) (query : string)
    (data : QueryData) (v : V) (res : Response) (b : string) (err : error) :
  httpPost c (graphql_url c) "application/json" (fst (Encode data query))
  = inl res →
  StatusCode res = StatusOK →
  ReadAll (Body' res) = (b, Some err) →
  ∃ e, queryUnmarshal dec c query data v
       = Return (v, Some e, Some (CloseBody res))
       ∧ Code e = Some 200%Z
       ∧ Unwrap e = Some (ErrFmt "failed to read response body: %s" [err]).
Proof.
  intros H Hs Hr. unfold queryUnmarshal.
  destruct (postQuery_cases c query data)
    as [(e' & Hq & _)|[(r & Hq & Hne & _)|(r & Hq & _ & ->)]];
    rewrite H in Hq; try discriminate; injection Hq as <-;
    [contradiction|].
  rewrite Hr. eexists. split; [reflexivity|]. simpl. rewrite Hs.
  split; reflexivity.
Qed.

Lemma X6_witness :
  ∃ e,
    queryUnmarshal decode_DatasetVariables
      (Samples.client_answering
         (Samples.respond 200
            (mkBody ("{", Some (ErrNew "unexpected EOF"))
                    (EmptyString, None) false)))
      "query" Samples.dimensions_query zero_DatasetVariables
    = Return (zero_DatasetVariables, Some e,
              Some (CloseBody
                      (Samples.respond 200
                         (mkBody ("{", Some (ErrNew "unexpected EOF"))
                                 (EmptyString, None) false))))
    ∧ Code e = Some 200%Z
    ∧ Unwrap e
      = Some (ErrFmt "failed to read response body: %s"
                [ErrNew "unexpected EOF"]).
Proof.
  apply (X6_queryUnmarshal_read_error decode_DatasetVariables
           (Samples.client_answering
              (Samples.respond 200
                 (mkBody ("{", Some (ErrNew "unexpected EOF"))
                         (EmptyString, None) false)))
           "query" Samples.dimensions_query zero_DatasetVariables
           (Samples.respond 200
              (mkBody ("{", Some (ErrNew "unexpected EOF"))
                      (EmptyString, None) false))
           "{" (ErrNew "unexpected EOF"));
    reflexivity.
Defined.

(** ** cantabular: GetCodebook *)

(** X7. GetCodebook returns a codebook exactly when it returns no error,
    and whenever the transport handed over a response its body is closed
    when the call is over. *)
Theorem X7_GetCodebook_response_xor_error
    {Cats Resp : Type} (show : Cats → string) (dec : decoder Resp)
    (zero : Resp) (errorResponse1 : Response → error)
    (c : Client) (req : GetCodebookRequest) :
  let out := GetCodebook show dec zero errorResponse1 c req in
  (is_Some (fst (fst out)) ↔ snd (fst out) = None)
  ∧ (∀ res, httpGet c (codebook_url show c req) = inl res →
            snd out = Some (CloseBody res))
  ∧ (∀ err, httpGet c (codebook_url show c req) = inr err →
            snd out = None).
Proof.
  unfold GetCodebook. cbv zeta.
  destruct (httpGet c _) as [res|err].
  - destruct (negb _).
    + simpl. split; [|split]; [|intros ? [= <-]; reflexivity|discriminate].
      split; [intros [? [=]]|discriminate].
    + destruct (ReadAll (Body' res)) as [b [err|]].
      * simpl. split; [|split]; [|intros ? [= <-]; reflexivity|discriminate].
        split; [intros [? [=]]|discriminate].
      * destruct (Unmarshal dec _ zero) as [resp [err|]]; simpl;
          (split; [|split]; [|intros ? [= <-]; reflexivity|discriminate]).
        -- split; [intros [? [=]]|discriminate].
        -- split; [reflexivity|eexists; reflexivity].
  - simpl. split; [|split]; [|discriminate|reflexivity].
    split; [intros [? [=]]|discriminate].
Qed.

Lemma string_app_assoc (a b c : string) : (a ++ b) ++ c = a ++ (b ++ c).
Proof.
  induction a as [|x a IH]; [reflexivity|].
  change (String x ((a ++ b) ++ c) = String x (a ++ b ++ c)).
  f_equal. exact IH.
Qed.

Lemma string_app_nil_r (a : string) : a ++ EmptyString = a.
Proof.
  induction a as [|x a IH]; [reflexivity|].
  change (String x (a ++ EmptyString) = String x a). f_equal. exact IH.
Qed.

(** X8. The codebook URL lists the variables in their order, each as
    [&v=] and the name as it is, after the [cats] parameter: one more
    variable adds one more [&v=name] at the end, and a nil list gives the
    URL of an empty one. *)
Theorem X8_codebook_url_variables
    {Cats : Type} (show : Cats → string) (c : Client)
    (dataset : string) (cats : Cats) (vars : list string) (v : string) :
  codebook_url show c (mkGetCodebookRequest dataset (Some (app vars [v])) cats)
  = codebook_url show c (mkGetCodebookRequest dataset (Some vars) cats)
    ++ "&v=" ++ v
  ∧ codebook_url show c (mkGetCodebookRequest dataset None cats)
    = codebook_url show c (mkGetCodebookRequest dataset (Some []) cats)
  ∧ codebook_url show c (mkGetCodebookRequest dataset (Some []) cats)
    = host c ++ "/v8/codebook/" ++ dataset ++ "?cats=" ++ show cats.
Proof.
  unfold codebook_url. simpl. split; [|split].
  - rewrite foldl_app. simpl. rewrite !string_app_assoc. reflexivity.
  - reflexivity.
  - rewrite string_app_nil_r. reflexivity.
Qed.

(** ** zebedee: get and the calls built on it *)

(** X9. [get] returns without an error only for a status from 200 to
    399, and then with the whole body and the headers of the response;
    for any other status it returns no bytes, no headers and an
    ErrInvalidZebedeeResponse with that status and the path of the
    request. *)
Theorem X9_get_status
    (url_Parse : string → string + error) (c : zebedee.Client)
    (token path : string) :
  (∀ b h, zebedee.get url_Parse c token path = (b, h, None) →
     ∃ p resp,
       url_Parse (zebedee.url c ++ path) = inl p
       ∧ zebedee.cli_Do c
           (zebedee.AddFlorenceHeader
              (zebedee.mkRequest "GET" (zebedee.url c ++ path) p ∅) token)
         = inl resp
       ∧ (200 ≤ StatusCode resp ≤ 399)%Z
       ∧ ReadAll (Body' resp) = (b, None)
       ∧ h = Some (Header resp))
  ∧ (∀ p resp,
       url_Parse (zebedee.url c ++ path) = inl p →
       zebedee.cli_Do c
         (zebedee.AddFlorenceHeader
            (zebedee.mkRequest "GET" (zebedee.url c ++ path) p ∅) token)
       = inl resp →
       (StatusCode resp < 200 ∨ 399 < StatusCode resp)%Z →
       zebedee.get url_Parse c token path
       = (EmptyString, None,
          Some (ErrInvalidZebedeeResponse (StatusCode resp) p))).
Proof.
  unfold zebedee.get, zebedee.NewRequest. split.
  - intros b h. destruct (url_Parse _) as [p|err]; [|discriminate].
    destruct (zebedee.cli_Do c _) as [resp|err] eqn:Hdo; [|discriminate].
    destruct ((StatusCode resp <? 200)%Z || (399 <? StatusCode resp)%Z)
      eqn:Hs; [discriminate|].
    destruct (ReadAll (Body' resp)) as [b' err] eqn:Hr.
    intros [= -> <- ->]. exists p, resp.
    apply orb_false_elim in Hs as [H1 H2].
    apply Z.ltb_ge in H1, H2.
    repeat split; try assumption; try reflexivity.
  - intros p resp -> -> Hs.
    assert ((StatusCode resp <? 200)%Z || (399 <? StatusCode resp)%Z = true)
      as ->.
    { apply orb_true_iff. destruct Hs as [H|H]; [left|right];
        apply Z.ltb_lt; exact H. }
    unfold zebedee.AddFlorenceHeader.
    destruct (_ <? _)%nat; reflexivity.
Qed.

(** X10. GetBreadcrumb never returns breadcrumbs together with an error:
    when the fetch or the decoding fails the list is nil. *)
Theorem X10_GetBreadcrumb_nil_on_error
    {Breadcrumb : Type} (url_Parse : string → string + error)
    (dec : decoder (slice Breadcrumb)) (c : zebedee.Client)
    (token uri : string) :
  fst (zebedee.GetBreadcrumb url_Parse dec c token uri) = None
  ∨ snd (zebedee.GetBreadcrumb url_Parse dec c token uri) = None.
Proof.
  unfold zebedee.GetBreadcrumb.
  destruct (zebedee.get _ _ _ _) as [[b h] [err|]]; [left; reflexivity|].
  destruct (Unmarshal dec b None) as [r [err|]];
    [left; reflexivity|right; reflexivity].
Qed.

Section GetDataset.

Context {Rest : Type}.
Variable url_Parse : string → string + error.
Variable zero_Rest : Rest.
Variable decode_Dataset : decoder (zebedee.Dataset (Rest := Rest)).
Variable decode_FileSize : decoder zebedee.FileSize.
Variable c : zebedee.Client.
Variable ctx : zebedee.Context.
Variable token : string.

Local Abbreviation err_of := (size_error url_Parse decode_FileSize c ctx token).
Local Abbreviation sized_d :=
  (sized_download url_Parse decode_FileSize c ctx token).
Local Abbreviation sized_s :=
  (sized_supplementaryFile url_Parse decode_FileSize c ctx token).
Local Abbreviation size_downloads :=
  (zebedee.size_downloads url_Parse decode_FileSize c ctx token).
Local Abbreviation size_supplementaryFiles :=
  (zebedee.size_supplementaryFiles url_Parse decode_FileSize c ctx token).
Local Abbreviation GetDataset :=
  (zebedee.GetDataset url_Parse zero_Rest decode_Dataset decode_FileSize
     c ctx token).

Lemma size_downloads_all (uri : string) (l acc : list zebedee.Download) :
  Forall (λ v, err_of uri (zebedee.Download_File v) = None) l →
  size_downloads uri l acc = (app acc (map (sized_d uri) l), None).
Proof.
  revert acc. induction l as [|v l IH]; intros acc Hall; simpl.
  - rewrite app_nil_r. reflexivity.
  - apply Forall_cons in Hall as [Hv Hl]. unfold size_error in Hv.
    destruct (zebedee.GetFileSize _ _ _ _ _ _) as [fs e] eqn:E.
    simpl in Hv. subst e. rewrite (IH _ Hl). rewrite <- app_assoc.
    unfold sized_download, size_of. rewrite E. reflexivity.
Qed.

Lemma size_downloads_stops (uri : string) (l1 l2 acc : list zebedee.Download)
    (v : zebedee.Download) (e : error) :
  Forall (λ v, err_of uri (zebedee.Download_File v) = None) l1 →
  err_of uri (zebedee.Download_File v) = Some e →
  size_downloads uri (app l1 (v :: l2)) acc
  = (app acc (map (sized_d uri) l1), Some e).
Proof.
  revert acc. induction l1 as [|x l1 IH]; intros acc Hall Hv; simpl.
  - unfold size_error in Hv.
    destruct (zebedee.GetFileSize _ _ _ _ _ _) as [fs e'].
    simpl in Hv. subst e'. rewrite app_nil_r. reflexivity.
  - apply Forall_cons in Hall as [Hx Hl]. unfold size_error in Hx.
    destruct (zebedee.GetFileSize _ _ _ _ _ _) as [fs e'] eqn:E.
    simpl in Hx. subst e'. rewrite (IH _ Hl Hv). rewrite <- app_assoc.
    unfold sized_download, size_of. rewrite E. reflexivity.
Qed.

Lemma size_downloads_inv (uri : string) (l acc r : list zebedee.Download) :
  size_downloads uri l acc = (r, None) →
  Forall (λ v, err_of uri (zebedee.Download_File v) = None) l.
Proof.
  revert acc. induction l as [|v l IH]; intros acc H; [constructor|].
  simpl in H.
  destruct (zebedee.GetFileSize _ _ _ _ _ _) as [fs [e|]] eqn:E;
    [discriminate|].
  constructor; [|eapply IH; exact H].
  unfold size_error. rewrite E. reflexivity.
Qed.

Lemma size_supplementaryFiles_all (uri : string)
    (l acc : list zebedee.SupplementaryFile) :
  Forall (λ v, err_of uri (zebedee.SupplementaryFile_File v) = None) l →
  size_supplementaryFiles uri l acc
  = (app acc (map (sized_s uri) l), None).
Proof.
  revert acc. induction l as [|v l IH]; intros acc Hall; simpl.
  - rewrite app_nil_r. reflexivity.
  - apply Forall_cons in Hall as [Hv Hl]. unfold size_error in Hv.
    destruct (zebedee.GetFileSize _ _ _ _ _ _) as [fs e] eqn:E.
    simpl in Hv. subst e. rewrite (IH _ Hl). rewrite <- app_assoc.
    unfold sized_supplementaryFile, size_of. rewrite E.
    reflexivity.
Qed.

Lemma size_supplementaryFiles_stops (uri : string)
    (l1 l2 acc : list zebedee.SupplementaryFile)
    (v : zebedee.SupplementaryFile) (e : error) :
  Forall (λ v, err_of uri (zebedee.SupplementaryFile_File v) = None) l1 →
  err_of uri (zebedee.SupplementaryFile_File v) = Some e →
  size_supplementaryFiles uri (app l1 (v :: l2)) acc
  = (app acc (map (sized_s uri) l1), Some e).
Proof.
  revert acc. induction l1 as [|x l1 IH]; intros acc Hall Hv; simpl.
  - unfold size_error in Hv.
    destruct (zebedee.GetFileSize _ _ _ _ _ _) as [fs e'].
    simpl in Hv. subst e'. rewrite app_nil_r. reflexivity.
  - apply Forall_cons in Hall as [Hx Hl]. unfold size_error in Hx.
    destruct (zebedee.GetFileSize _ _ _ _ _ _) as [fs e'] eqn:E.
    simpl in Hx. subst e'. rewrite (IH _ Hl Hv). rewrite <- app_assoc.
    unfold sized_supplementaryFile, size_of. rewrite E.
    reflexivity.
Qed.

Lemma size_supplementaryFiles_inv (uri : string)
    (l acc r : list zebedee.SupplementaryFile) :
  size_supplementaryFiles uri l acc = (r, None) →
  Forall (λ v, err_of uri (zebedee.SupplementaryFile_File v) = None) l.
Proof.
  revert acc. induction l as [|v l IH]; intros acc H; [constructor|].
  simpl in H.
  destruct (zebedee.GetFileSize _ _ _ _ _ _) as [fs [e|]] eqn:E;
    [discriminate|].
  constructor; [|eapply IH; exact H].
  unfold size_error. rewrite E. reflexivity.
Qed.

End GetDataset.

(** X11. When GetDataset succeeds, the dataset it returns is the decoded
    one with both lists rebuilt: the same files in the same order, the
    titles kept, each size the decimal text of what GetFileSize reported
    for [uri/file]; the lists are never nil, and the rest of the dataset
    is as decoded. *)
Theorem X11_GetDataset_success
    {Rest : Type} (url_Parse : string → string + error) (zero_Rest : Rest)
    (decode_Dataset : decoder (zebedee.Dataset (Rest := Rest)))
    (decode_FileSize : decoder zebedee.FileSize)
    (c : zebedee.Client) (ctx : zebedee.Context) (token uri : string)
    (d : zebedee.Dataset) :
  zebedee.GetDataset url_Parse zero_Rest decode_Dataset decode_FileSize
    c ctx token uri = (d, None) →
  ∃ d0,
    fetched url_Parse c ctx token uri
    = (fst (fetched url_Parse c ctx token uri), None)
    ∧ Unmarshal decode_Dataset (fst (fetched url_Parse c ctx token uri))
        (zebedee.zero_Dataset zero_Rest)
      = (d0, None)
    ∧ zebedee.Downloads d
      = Some (map (sized_download url_Parse decode_FileSize c ctx token uri)
                (elems (zebedee.Downloads d0)))
    ∧ zebedee.SupplementaryFiles d
      = Some (map (sized_supplementaryFile url_Parse decode_FileSize c ctx
                     token uri)
                (elems (zebedee.SupplementaryFiles d0)))
    ∧ zebedee.Dataset_rest d = zebedee.Dataset_rest d0.
Proof.
  unfold zebedee.GetDataset, fetched.
  destruct (zebedee.get _ _ _ _) as [[b h] [err|]]; [discriminate|].
  simpl fst.
  destruct (Unmarshal decode_Dataset b _) as [d0 [err|]] eqn:EU;
    [discriminate|].
  destruct (zebedee.size_downloads _ _ _ _ _ _ _ _) as [ds [err|]] eqn:E1;
    [discriminate|].
  cbv zeta. simpl zebedee.SupplementaryFiles.
  destruct (zebedee.size_supplementaryFiles _ _ _ _ _ _ _ _)
    as [ss [err|]] eqn:E2; [discriminate|].
  intros [= <-]. exists d0. simpl.
  pose proof (size_downloads_inv _ _ _ _ _ _ _ _ _ E1) as H1.
  pose proof (size_supplementaryFiles_inv _ _ _ _ _ _ _ _ _ E2) as H2.
  rewrite (size_downloads_all _ _ _ _ _ _ _ [] H1) in E1.
  rewrite (size_supplementaryFiles_all _ _ _ _ _ _ _ [] H2) in E2.
  injection E1 as <-. injection E2 as <-. repeat split.
Qed.

Lemma X11_witness :
  ∃ d0,
    fetched inl Samples.all_files Samples.no_context "token" "/ds"
    = (fst (fetched inl Samples.all_files Samples.no_context "token" "/ds"),
       None)
    ∧ Unmarshal Samples.sample_decode_Dataset
        (fst (fetched inl Samples.all_files Samples.no_context "token" "/ds"))
        (zebedee.zero_Dataset tt)
      = (d0, None)
    ∧ Some [zebedee.mkDownload "a.csv" "120"; zebedee.mkDownload "b.xls" "7"]
      = Some (map (sized_download inl Samples.sample_decode_FileSize
                     Samples.all_files Samples.no_context "token" "/ds")
                (elems (zebedee.Downloads d0)))
    ∧ Some [zebedee.mkSupplementaryFile "n.pdf" "Notes" "0"]
      = Some (map (sized_supplementaryFile inl Samples.sample_decode_FileSize
                     Samples.all_files Samples.no_context "token" "/ds")
                (elems (zebedee.SupplementaryFiles d0)))
    ∧ tt = zebedee.Dataset_rest d0.
Proof.
  apply (X11_GetDataset_success inl tt Samples.sample_decode_Dataset
           Samples.sample_decode_FileSize Samples.all_files
           Samples.no_context "token" "/ds"
           (zebedee.mkDataset
              (Some [zebedee.mkDownload "a.csv" "120";
                     zebedee.mkDownload "b.xls" "7"])
              (Some [zebedee.mkSupplementaryFile "n.pdf" "Notes" "0"]) tt)).
  vm_compute. reflexivity.
Defined.

(** X12. When the size of a download cannot be had, GetDataset stops at
    the first such file and returns that file's error with the dataset
    exactly as decoded: the sizes already fetched for the files before it
    are dropped, and no supplementary file is asked for. *)
Theorem X12_GetDataset_download_fails
    {Rest : Type} (url_Parse : string → string + error) (zero_Rest : Rest)
    (decode_Dataset : decoder (zebedee.Dataset (Rest := Rest)))
    (decode_FileSize : decoder zebedee.FileSize)
    (c : zebedee.Client) (ctx : zebedee.Context) (token uri : string)
    (b : string) (d0 : zebedee.Dataset)
    (before after : list zebedee.Download) (v : zebedee.Download)
    (e : error) :
  fetched url_Parse c ctx token uri = (b, None) →
  Unmarshal decode_Dataset b (zebedee.zero_Dataset zero_Rest) = (d0, None) →
  elems (zebedee.Downloads d0) = app before (v :: after) →
  Forall (λ w, size_error url_Parse decode_FileSize c ctx token uri
                 (zebedee.Download_File w) = None) before →
  size_error url_Parse decode_FileSize c ctx token uri
    (zebedee.Download_File v) = Some e →
  zebedee.GetDataset url_Parse zero_Rest decode_Dataset decode_FileSize
    c ctx token uri = (d0, Some e).
Proof.
  unfold zebedee.GetDataset, fetched. intros Hf Hu Hl Hb Hv.
  destruct (zebedee.get _ _ _ _) as [[b' h] err]. injection Hf as -> ->.
  rewrite Hu, Hl.
  erewrite size_downloads_stops; [reflexivity | exact Hb | exact Hv].
Qed.

Lemma X12_witness :
  zebedee.GetDataset inl tt Samples.sample_decode_Dataset
    Samples.sample_decode_FileSize Samples.missing_download
    Samples.no_context "token" "/ds"
  = (zebedee.mkDataset
       (Some [zebedee.mkDownload "a.csv" EmptyString;
              zebedee.mkDownload "b.xls" EmptyString])
       (Some [zebedee.mkSupplementaryFile "n.pdf" "Notes" EmptyString]) tt,
     Some (ErrInvalidZebedeeResponse 404
             "http://zebedee/filesize?uri=%2Fds%2Fb.xls")).
Proof.
  apply (X12_GetDataset_download_fails inl tt Samples.sample_decode_Dataset
           Samples.sample_decode_FileSize Samples.missing_download
           Samples.no_context "token" "/ds"
           (Samples.json_text Samples.dataset_page) _
           [zebedee.mkDownload "a.csv" EmptyString] []
           (zebedee.mkDownload "b.xls" EmptyString)).
  - vm_compute. reflexivity.
  - vm_compute. reflexivity.
  - reflexivity.
  - constructor; [vm_compute; reflexivity | constructor].
  - vm_compute. reflexivity.
Defined.

(** X13. When every download has a size and the size of a supplementary
    file cannot be had, GetDataset returns that file's error with a
    half-built dataset: the downloads are the sized ones, the
    supplementary files are still the decoded ones. *)
Theorem X13_GetDataset_supplementary_fails
    {Rest : Type} (url_Parse : string → string + error) (zero_Rest : Rest)
    (decode_Dataset : decoder (zebedee.Dataset (Rest := Rest)))
    (decode_FileSize : decoder zebedee.FileSize)
    (c : zebedee.Client) (ctx : zebedee.Context) (token uri : string)
    (b : string) (d0 : zebedee.Dataset)
    (before after : list zebedee.SupplementaryFile)
    (v : zebedee.SupplementaryFile) (e : error) :
  fetched url_Parse c ctx token uri = (b, None) →
  Unmarshal decode_Dataset b (zebedee.zero_Dataset zero_Rest) = (d0, None) →
  Forall (λ w, size_error url_Parse decode_FileSize c ctx token uri
                 (zebedee.Download_File w) = None)
    (elems (zebedee.Downloads d0)) →
  elems (zebedee.SupplementaryFiles d0) = app before (v :: after) →
  Forall (λ w, size_error url_Parse decode_FileSize c ctx token uri
                 (zebedee.SupplementaryFile_File w) = None) before →
  size_error url_Parse decode_FileSize c ctx token uri
    (zebedee.SupplementaryFile_File v) = Some e →
  zebedee.GetDataset url_Parse zero_Rest decode_Dataset decode_FileSize
    c ctx token uri
  = (zebedee.mkDataset
       (Some (map (sized_download url_Parse decode_FileSize c ctx token uri)
                (elems (zebedee.Downloads d0))))
       (zebedee.SupplementaryFiles d0) (zebedee.Dataset_rest d0),
     Some e).
Proof.
  unfold zebedee.GetDataset, fetched. intros Hf Hu Hd Hl Hb Hv.
  destruct (zebedee.get _ _ _ _) as [[b' h] err]. injection Hf as -> ->.
  rewrite Hu.
  rewrite (size_downloads_all _ _ _ _ _ _ _ [] Hd).
  cbv zeta. simpl zebedee.SupplementaryFiles. rewrite Hl.
  erewrite size_supplementaryFiles_stops;
    [reflexivity | exact Hb | exact Hv].
Qed.

Lemma X13_witness :
  zebedee.GetDataset inl tt Samples.sample_decode_Dataset
    Samples.sample_decode_FileSize Samples.missing_supplement
    Samples.no_context "token" "/ds"
  = (zebedee.mkDataset
       (Some (map (sized_download inl Samples.sample_decode_FileSize
                     Samples.missing_supplement Samples.no_context "token"
                     "/ds")
                [zebedee.mkDownload "a.csv" EmptyString;
                 zebedee.mkDownload "b.xls" EmptyString]))
       (Some [zebedee.mkSupplementaryFile "n.pdf" "Notes" EmptyString]) tt,
     Some (ErrInvalidZebedeeResponse 404
             "http://zebedee/filesize?uri=%2Fds%2Fn.pdf")).
Proof.
  apply (X13_GetDataset_supplementary_fails inl tt
           Samples.sample_decode_Dataset Samples.sample_decode_FileSize
           Samples.missing_supplement Samples.no_context "token" "/ds"
           (Samples.json_text Samples.dataset_page)
           (zebedee.mkDataset
              (Some [zebedee.mkDownload "a.csv" EmptyString;
                     zebedee.mkDownload "b.xls" EmptyString])
              (Some [zebedee.mkSupplementaryFile "n.pdf" "Notes" EmptyString])
              tt)
           [] []
           (zebedee.mkSupplementaryFile "n.pdf" "Notes" EmptyString)).
  - vm_compute. reflexivity.
  - vm_compute. reflexivity.
  - constructor; [vm_compute; reflexivity |].
    constructor; [vm_compute; reflexivity | constructor].
  - reflexivity.
  - constructor.
  - vm_compute. reflexivity.
Defined.

(** ** More of identity.CheckRequest *)

(** X14. CheckRequest sends at most one request to the auth API; it is a
    GET of [BaseURL/identity] that carries one header: the Florence token
    when the incoming request has one, and the service token only when it
    has no Florence token. *)
Theorem X14_CheckRequest_outbound
    (url_error : string → option error) (newClient : identity.Doer)
    (api : identity.IdentityClient) (req : identity.Request)
    (o : identity.Outbound) :
  o ∈ snd (identity.CheckRequest url_error newClient api req) →
  let florenceToken :=
    identity.Get (identity.Request_Header req) identity.FlorenceHeaderKey in
  let authToken :=
    identity.Get (identity.Request_Header req) identity.AuthHeaderKey in
  snd (identity.CheckRequest url_error newClient api req) = [o]
  ∧ identity.Outbound_Method o = "GET"
  ∧ identity.Outbound_URL o = identity.BaseURL api ++ "/identity"
  ∧ (florenceToken ≠ EmptyString →
     identity.Outbound_Header o
     = {[ identity.FlorenceHeaderKey := [florenceToken] ]})
  ∧ (florenceToken = EmptyString →
     authToken ≠ EmptyString
     ∧ identity.Outbound_Header o
       = {[ identity.AuthHeaderKey := [authToken] ]}).
Proof.
  unfold identity.CheckRequest. cbv zeta.
  destruct (identity.Get _ identity.FlorenceHeaderKey) as [|a ft] eqn:Hf;
    destruct (identity.Get _ identity.AuthHeaderKey) as [|a' at'] eqn:Ha;
    simpl; try (intros H; apply elem_of_nil in H; contradiction);
    (destruct (url_error _) as [err|];
       [simpl; intros H; apply elem_of_nil in H; contradiction|]);
    (destruct (default newClient (identity.HTTPClient api) _) as [resp|err];
       [destruct (negb _);
          [|destruct (identity.unmarshalIdentityResponse resp)
              as [[r|] [err|]]]|]);
    simpl; intros H; apply list_elem_of_singleton in H; subst o; simpl;
    repeat split; try congruence; try discriminate.
Qed.

Lemma X14_witness :
  snd (identity.CheckRequest (λ _, None) (λ _, inr (ErrNew "unreachable"))
         (identity.mkIdentityClient None "http://auth")
         Samples.both_tokens)
  = [identity.mkOutbound "GET" "http://auth/identity"
       {[ "X-Florence-Token" := ["abc"] ]}].
Proof.
  apply (X14_CheckRequest_outbound (λ _, None)
           (λ _, inr (ErrNew "unreachable"))
           (identity.mkIdentityClient None "http://auth")
           Samples.both_tokens
           (identity.mkOutbound "GET" "http://auth/identity"
              {[ "X-Florence-Token" := ["abc"] ]})).
  vm_compute. apply list_elem_of_here.
Defined.



(** X16. When the auth API answers a request that carries a token with
    status 200 and the JSON text [null], the decoding succeeds with a nil
    pointer and CheckRequest reads a field through it: the call panics,
    after the one request has been sent. *)
Theorem X16_CheckRequest_null_body
    (url_error : string → option error) (newClient : identity.Doer)
    (api : identity.IdentityClient) (req : identity.Request)
    (resp : Response) (b rest : string) :
  identity.Get (identity.Request_Header req) identity.FlorenceHeaderKey
    ≠ EmptyString
  ∨ identity.Get (identity.Request_Header req) identity.AuthHeaderKey
    ≠ EmptyString →
  url_error (identity.BaseURL api ++ "/identity") = None →
  (∀ o, default newClient (identity.HTTPClient api) o = inl resp) →
  StatusCode resp = StatusOK →
  ReadAll (Body' resp) = (b, None) →
  parse b = Parsed JNull rest →
  ∃ sent, identity.CheckRequest url_error newClient api req
          = (Panic "nil pointer dereference", sent)
          ∧ List.length sent = 1%nat.
Proof.
  unfold identity.CheckRequest. cbv zeta. intros Hne Hu Hc Hs Hr Hp.
  destruct (identity.Get _ identity.FlorenceHeaderKey) as [|a ft];
    destruct (identity.Get _ identity.AuthHeaderKey) as [|a' at'];
    try (destruct Hne as [Hne|Hne]; contradiction); simpl;
    rewrite Hu, Hc, Hs; simpl;
    unfold identity.unmarshalIdentityResponse, Unmarshal; rewrite Hr, Hp;
    simpl; eexists; split; reflexivity.
Qed.

Lemma X16_witness :
  ∃ sent,
    identity.CheckRequest (λ _, None) (λ _, inr (ErrNew "unreachable"))
      (Samples.auth_answering (Samples.respond 200 (memBody "null")))
      Samples.service_request
    = (Panic "nil pointer dereference", sent)
    ∧ List.length sent = 1%nat.
Proof.
  apply (X16_CheckRequest_null_body (λ _, None)
           (λ _, inr (ErrNew "unreachable"))
           (Samples.auth_answering (Samples.respond 200 (memBody "null")))
           Samples.service_request
           (Samples.respond 200 (memBody "null")) "null" EmptyString).
  - right. vm_compute. discriminate.
  - reflexivity.
  - reflexivity.
  - reflexivity.
  - reflexivity.
  - vm_compute. reflexivity.
Defined.

(** ** splitToken *)

Lemma drop_bytes_suffix (n : nat) (s : string) :
  ∃ p, s = p ++ identity.drop_bytes n s
       ∧ String.length p = Nat.min n (String.length s).
Proof.
  revert s. induction n as [|n IH]; intros s.
  - exists EmptyString. split; reflexivity.
  - destruct s as [|a s].
    + exists EmptyString. split; reflexivity.
    + destruct (IH s) as (p & Hp & Hl). exists (String a p). split.
      * change (String a s = String a (p ++ identity.drop_bytes n s)).
        f_equal. exact Hp.
      * simpl. f_equal. exact Hl.
Qed.

Lemma string_length_app (a b : string) :
  String.length (a ++ b) = (String.length a + String.length b)%nat.
Proof.
  induction a as [|x a IH]; [reflexivity|].
  change (String x a ++ b) with (String x (a ++ b)). simpl. f_equal. exact IH.
Qed.

(** X17. The part of a token that splitToken keeps for the log is the end
    of the token and never more than six bytes of it: the whole token when
    it has at most six bytes, its last six otherwise. *)
Theorem X17_splitToken_tokenPart (token : string) :
  ∃ p, token = p ++ identity.tokenPart (identity.splitToken token)
       ∧ String.length (identity.tokenPart (identity.splitToken token))
         = Nat.min 6 (String.length token).
Proof.
  unfold identity.splitToken. cbn [identity.tokenPart].
  destruct (6 <? String.length token)%nat eqn:E.
  - apply Nat.ltb_lt in E.
    destruct (drop_bytes_suffix (String.length token - 6) token)
      as (p & Hp & Hl).
    exists p. split; [exact Hp|].
    apply (f_equal String.length) in Hp. rewrite string_length_app in Hp.
    lia.
  - apply Nat.ltb_ge in E. exists EmptyString. split; [reflexivity|lia].
Qed.

(** ** More of stream.Stream *)

(** X18. Whatever the transformer and the consumer return, the body that
    was given to Stream is closed when Stream returns, and a nil body is
    left alone. *)
Theorem X18_Stream_closes_body
    {Transformer Consumer : Type}
    (run_pipe : Transformer → Consumer → option Body
                → option error * option error)
    (body : option Body) (transform : Transformer) (consume : Consumer) :
  match body with
  | Some b =>
      ∃ b', snd (stream.Stream run_pipe body transform consume) = Some b'
            ∧ Body_closed b' = true
            ∧ ReadAll b' = Body_afterClose b
  | None => snd (stream.Stream run_pipe body transform consume) = None
  end.
Proof.
  unfold stream.Stream.
  destruct (run_pipe transform consume body) as [[et|] [ec|]];
    destruct body as [b|]; simpl; try reflexivity;
    eexists; repeat split.
Qed.

(** ** Decoding a list of names *)

Lemma decode_items_names (names : list string) :
  decode_items zero_Edge decode_Edge
    (map (λ n, JObj [("node", JObj [("name", JStr n)])]) names) []
  = (map (λ n, mkEdge (mkNode n EmptyString EmptyString zero_Categories None
                         EmptyString zero_Variable)) names,
     None).
Proof.
  induction names as [|n names IH]; [reflexivity|].
  cbn [map decode_items hd tl]. rewrite IH. reflexivity.
Qed.

(** X19. The JSON object whose [edges] hold one [node] per name, each with
    that [name] and nothing else, decodes into the variables whose edges
    list exactly those names, in that order, with no error. *)
Theorem X19_decode_Variables_names (names : list string) :
  decode_Variables (names_json names) zero_Variables
  = (listing names, None).
Proof.
  unfold names_json, listing.
  cbn [decode_Variables decode_members]. 
  change (is_field "edges" "edges") with true. cbv iota.
  unfold decode_slice. cbn [Variables_Edges zero_Variables elems].
  rewrite decode_items_names. reflexivity.
Qed.

(** ** More of the fan-out *)

(** X20. At every moment of the fan-out, whatever the interleaving, each
    of the four lists has the entries it had after decoding, in the same
    places, and each entry is either as decoded or already has the title
    of its own page: no entry is added, dropped or moved, none gets the
    title of another page, and no URI changes. *)
Theorem X20_fan_out_entries
    (url_Parse : string → string + error) (c : zebedee.Client)
    (ctx : zebedee.Context) (token : string)
    (arrays : list (list zebedee.Related)) (s : zebedee.state) :
  rtc (zebedee.step url_Parse c ctx token) (zebedee.init arrays) s →
  Forall2
    (Forall2 (λ e e0, e = e0 ∨ e = zebedee.resolve url_Parse c ctx token e0))
    (zebedee.heap s) arrays
  ∧ map (map zebedee.URI) (zebedee.heap s) = map (map zebedee.URI) arrays.
Proof.
  intros Hrun.
  pose proof (Inv_reachable url_Parse c ctx token _ _ Hrun) as HI.
  pose proof (inv_lengths _ _ _ _ _ _ HI) as Hlen.
  pose proof (inv_shape _ _ _ _ _ _ HI) as Hshape.
  assert (Forall2
            (Forall2 (λ e e0,
               e = e0 ∨ e = zebedee.resolve url_Parse c ctx token e0))
            (zebedee.heap s) arrays) as HF.
  { apply Forall2_same_length_lookup. split.
    - apply (f_equal List.length) in Hlen.
      rewrite !length_map in Hlen. exact Hlen.
    - intros a l l0 Hl Hl0. apply Forall2_same_length_lookup. split.
      + apply (f_equal (λ x, x !! a)) in Hlen.
        rewrite !list_lookup_fmap, Hl, Hl0 in Hlen. simpl in Hlen.
        congruence.
      + intros i x y Hx Hy.
        assert (slot arrays a i = Some y) as Hs
          by (unfold slot; rewrite Hl0; exact Hy).
        assert (slot (zebedee.heap s) a i = Some x) as Hh
          by (unfold slot; rewrite Hl; exact Hx).
        destruct (Hshape a i y Hs) as [H|H]; rewrite Hh in H;
          injection H as ->; [left|right]; reflexivity. }
  split; [exact HF|].
  clear -HF. induction HF as [|l l0 h h0 Hl _ IH]; [reflexivity|].
  simpl. f_equal; [|exact IH].
  clear -Hl. induction Hl as [|x y l l0 Hxy _ IH]; [reflexivity|].
  simpl. f_equal; [|exact IH].
  destruct Hxy as [->| ->]; reflexivity.
Qed.

Lemma X20_witness :
  Forall2
    (Forall2 (λ e e0,
       e = e0
       ∨ e = zebedee.resolve inl Samples.flaky Samples.no_context "token" e0))
    (zebedee.heap Samples.two_entries_done)
    (zebedee.related Samples.two_entries)
  ∧ map (map zebedee.URI) (zebedee.heap Samples.two_entries_done)
    = map (map zebedee.URI) (zebedee.related Samples.two_entries).
Proof.
  apply (X20_fan_out_entries inl Samples.flaky Samples.no_context "token"
           (zebedee.related Samples.two_entries) Samples.two_entries_done).
  unfold zebedee.init, zebedee.related, Samples.two_entries. simpl.
  do 16 fan_out_step.
  vm_compute. apply rtc_refl.
Defined.
